(** * UNO, No Mercy edition: a shallow embedding of [uno.py]

    The development follows the layout of the Python source: the card model
    ([Color], [Rank], [Card]), the deck with its draw and discard piles, the
    players and their decision procedures, the moves, the game state and the
    turn engine of [Game.start].  Printing is the only effect left out.

    Conventions.
    - Python [str] values are [string]s, Python [int]s are [Z].
    - A [deque] is a list whose head is the left end: [popleft] takes the
      head, [appendleft] is a cons and [extend] appends on the right.
    - [Card] defines no [__eq__], so [in] and [list.remove] compare object
      identity.  The field [uid] of a card stands for that identity.
    - The global generator of the [random] module is a tape of naturals
      ([Rng]) that is passed along and consumed by [randbelow].
    - A Python exception is the [Raise] case of [result]. *)

From Stdlib Require Import ZArith Lia.
From stdpp Require Import base decidable option list strings pretty.

Local Open Scope Z_scope.

(** ** Exceptions *)

Inductive PyError : Type :=
| IndexError
| ValueError
| AttributeError
| ZeroDivisionError.

(** [Diverge] is the only case that is not Python's: a loop of the model ran
    out of fuel. *)
Inductive result (A : Type) : Type :=
| Ok (a : A)
| Raise (e : PyError)
| Diverge.

Arguments Ok {A} a.
Arguments Raise {A} e.
Arguments Diverge {A}.

#[global] Instance result_ret : MRet result := λ A a, Ok a.

#[global] Instance result_bind : MBind result := λ A B k m,
  match m with
  | Ok a => k a
  | Raise e => Raise e
  | Diverge => Diverge
  end.

(** [seq[i]] for a Python list or deque: negative indices count from the
    right end, anything outside [-len, len) raises [IndexError].  The result
    is the position that is read. *)
Definition py_index {A : Type} (l : list A) (i : Z) : result nat :=
  let n := Z.of_nat (length l) in
  if decide (0 ≤ i < n) then Ok (Z.to_nat i)
  else if decide (- n ≤ i < 0) then Ok (Z.to_nat (n + i))
  else Raise IndexError.

(** ** Core model *)

Module Color.
Definition RED : string := "RED".
Definition YELLOW : string := "YELLOW".
Definition GREEN : string := "GREEN".
Definition BLUE : string := "BLUE".
Definition WILD : string := "WILD".

Definition STANDARD : list string := [RED; YELLOW; GREEN; BLUE].
End Color.

Module Rank.
Definition ZERO : string := "ZERO".
Definition ONE : string := "ONE".
Definition TWO : string := "TWO".
Definition THREE : string := "THREE".
Definition FOUR : string := "FOUR".
Definition FIVE : string := "FIVE".
Definition SIX : string := "SIX".
Definition SEVEN : string := "SEVEN".
Definition EIGHT : string := "EIGHT".
Definition NINE : string := "NINE".
Definition SKIP : string := "SKIP".
Definition REVERSE : string := "REVERSE".
Definition DRAW_TWO : string := "DRAW_TWO".
Definition WILD : string := "WILD".
Definition WILD_DRAW_FOUR : string := "WILD_DRAW_FOUR".

Definition NUMBERS : list string :=
  [ZERO; ONE; TWO; THREE; FOUR; FIVE; SIX; SEVEN; EIGHT; NINE].
Definition ACTIONS : list string := [SKIP; REVERSE; DRAW_TWO].
Definition WILDS : list string := [WILD; WILD_DRAW_FOUR].

Definition is_number (rank : string) : bool := bool_decide (rank ∈ NUMBERS).
Definition is_action (rank : string) : bool := bool_decide (rank ∈ ACTIONS).
Definition is_wild (rank : string) : bool := bool_decide (rank ∈ WILDS).
End Rank.

Module Card.
Record t : Type := mk {
  uid : nat;
  color : string;
  rank : string
}.

#[global] Instance eq_dec : EqDecision t.
Proof. solve_decision. Defined.

(** [active_color] is [None] until the game has started. *)
Definition matches (self top_card : t) (active_color : option string) : bool :=
  if Rank.is_wild (rank self) then true
  else if Rank.is_wild (rank top_card) then
    bool_decide (Some (color self) = active_color)
    || bool_decide (rank self = rank top_card)
  else
    bool_decide (color self = color top_card)
    || bool_decide (rank self = rank top_card).
End Card.

(** ** Randomness *)

Definition Rng : Type := list nat.

(** [random._randbelow(n)] for [n > 0]: the next number of the tape, reduced
    below [n]; an exhausted tape keeps answering 0. *)
Definition randbelow (n : nat) (g : Rng) : nat * Rng :=
  (Nat.modulo (hd 0%nat g) n, tl g).

(** [x[i], x[j] = x[j], x[i]] *)
Definition swap {A : Type} (i j : nat) (x : list A) : list A :=
  match x !! i, x !! j with
  | Some a, Some b => <[j:=a]> (<[i:=b]> x)
  | _, _ => x
  end.

(** The loop of [random.shuffle]: for [i] from [len(x) - 1] down to 1, pick
    [j = randbelow(i + 1)] and exchange [x[i]] and [x[j]]. *)
Fixpoint shuffle_from {A : Type} (i : nat) (x : list A) (g : Rng) : list A * Rng :=
  match i with
  | O => (x, g)
  | S i' =>
      let '(j, g') := randbelow (S i) g in
      shuffle_from i' (swap i j x) g'
  end.

Definition shuffle {A : Type} (x : list A) (g : Rng) : list A * Rng :=
  shuffle_from (length x - 1)%nat x g.

(** [list.remove(x)]: drops the first occurrence, [ValueError] without one. *)
Fixpoint list_remove {A : Type} `{EqDecision A} (x : A) (l : list A) : result (list A) :=
  match l with
  | [] => Raise ValueError
  | y :: l' => if decide (y = x) then Ok l' else l'' ← list_remove x l'; Ok (y :: l'')
  end.

(** ** Deck and piles *)

Module Deck.
Record t : Type := mk {
  draw_pile : list Card.t;
  discard_pile : list Card.t
}.

(** The faces of the list [cards] of [_build], in the order of creation. *)
Definition build_faces : list (string * string) :=
  (c ← Color.STANDARD;
     (c, Rank.ZERO) ::
     (_ ← seq 0 2; r ← drop 1 Rank.NUMBERS ++ Rank.ACTIONS; [(c, r)]))
  ++ (_ ← seq 0 4;
        [(Color.WILD, Rank.WILD); (Color.WILD, Rank.WILD_DRAW_FOUR)]).

(** The card objects of [_build] before the shuffle; [uid] is the index of
    creation. *)
Definition build_cards : list Card.t :=
  imap (λ i f, Card.mk i f.1 f.2) build_faces.

(** [Deck.__init__]: two empty piles, then [_build]. *)
Definition _build (self : t) (g : Rng) : t * Rng :=
  let '(cards, g') := shuffle build_cards g in
  (mk (draw_pile self ++ cards) (discard_pile self), g').

Definition new (g : Rng) : t * Rng := _build (mk [] []) g.

Definition _reshuffle_from_discard (self : t) (g : Rng) : t * Rng :=
  match discard_pile self with
  | [] => (self, g)
  | top :: rest =>
      let '(rest', g') := shuffle rest g in
      (mk (draw_pile self ++ rest') [top], g')
  end.

(** The drawn card (or [None]), the deck and the tape after the call. *)
Definition draw (self : t) (g : Rng) : option Card.t * t * Rng :=
  let '(d, g1) :=
    match draw_pile self with
    | [] => _reshuffle_from_discard self g
    | _ :: _ => (self, g)
    end in
  match draw_pile d with
  | c :: pile => (Some c, mk pile (discard_pile d), g1)
  | [] => (None, d, g1)
  end.

Definition discard (self : t) (card : Card.t) : t :=
  mk (draw_pile self) (card :: discard_pile self).

Definition top_discard (self : t) : result Card.t :=
  match discard_pile self with
  | c :: _ => Ok c
  | [] => Raise IndexError
  end.

(** [self.discard(c)] takes whatever [draw] returned, and [c.rank] on
    [None] raises [AttributeError]. *)
Fixpoint start_discard_non_wild (fuel : nat) (self : t) (g : Rng) : result (t * Rng) :=
  match fuel with
  | O => Diverge
  | S fuel' =>
      match draw self g with
      | (Some c, d, g1) =>
          let d' := discard d c in
          if negb (Rank.is_wild (Card.rank c)) then Ok (d', g1)
          else start_discard_non_wild fuel' d' g1
      | (None, _, _) => Raise AttributeError
      end
  end.
End Deck.

(** ** Players *)

Module Player.
(** The class of the object: the engine asks [isinstance(_, AggressiveAI)]. *)
Inductive cls : Type := HumanPlayer | AggressiveAI.

#[global] Instance cls_eq_dec : EqDecision cls.
Proof. solve_decision. Defined.

Record t : Type := mk {
  class : cls;
  name : string;
  hand : list Card.t
}.

Definition with_hand (h : list Card.t) (self : t) : t :=
  mk (class self) (name self) h.

(** The loop of [draw] on the hand: [count] calls of [deck.draw()], each
    card that comes back is appended. *)
Fixpoint draw_loop (count : nat) (h : list Card.t) (deck : Deck.t) (g : Rng)
  : list Card.t * Deck.t * Rng :=
  match count with
  | O => (h, deck, g)
  | S count' =>
      match Deck.draw deck g with
      | (Some c, deck', g') => draw_loop count' (h ++ [c]) deck' g'
      | (None, deck', g') => draw_loop count' h deck' g'
      end
  end.

Definition draw (self : t) (deck : Deck.t) (count : Z) (g : Rng) : t * Deck.t * Rng :=
  let '(h, deck', g') := draw_loop (Z.to_nat count) (hand self) deck g in
  (with_hand h self, deck', g').

Definition has_playable (self : t) (top : Card.t) (active_color : option string) : bool :=
  existsb (λ c, Card.matches c top active_color) (hand self).

Definition count_color (self : t) (color : string) : nat :=
  length (filter (λ c, Card.color c = color) (hand self)).

Definition has_color (self : t) (color : option string) : bool :=
  existsb (λ c, negb (Rank.is_wild (Card.rank c))
                && bool_decide (Some (Card.color c) = color)) (hand self).
End Player.

(** ** Moves and state *)

Module Move.
Definition PLAY : string := "PLAY".
Definition DRAW : string := "DRAW".
Definition INVALID : string := "INVALID".

Record t : Type := mk {
  type_ : string;
  card : option Card.t;
  chosen_color : option string;
  challenge : bool
}.

Definition play (card : Card.t) (chosen_color : option string) (challenge : bool) : t :=
  mk PLAY (Some card) chosen_color challenge.
Definition draw : t := mk DRAW None None false.
Definition invalid : t := mk INVALID None None false.
End Move.

Module GameState.
Record t : Type := mk {
  deck : Deck.t;
  players : list Player.t;
  current_index : Z;
  direction : Z;
  active_color : option string;
  pending_draw : Z;
  no_mercy : bool
}.

Definition new (deck : Deck.t) (players : list Player.t) (no_mercy : bool) : t :=
  mk deck players 0 1 None 0 no_mercy.

Definition with_deck (d : Deck.t) (self : t) : t :=
  mk d (players self) (current_index self) (direction self)
     (active_color self) (pending_draw self) (no_mercy self).
Definition with_players (ps : list Player.t) (self : t) : t :=
  mk (deck self) ps (current_index self) (direction self)
     (active_color self) (pending_draw self) (no_mercy self).
Definition with_current_index (i : Z) (self : t) : t :=
  mk (deck self) (players self) i (direction self)
     (active_color self) (pending_draw self) (no_mercy self).
Definition with_direction (d : Z) (self : t) : t :=
  mk (deck self) (players self) (current_index self) d
     (active_color self) (pending_draw self) (no_mercy self).
Definition with_active_color (c : option string) (self : t) : t :=
  mk (deck self) (players self) (current_index self) (direction self)
     c (pending_draw self) (no_mercy self).
Definition with_pending_draw (n : Z) (self : t) : t :=
  mk (deck self) (players self) (current_index self) (direction self)
     (active_color self) n (no_mercy self).

(** [self.players[i]]: the position that is read. *)
Definition player_pos (self : t) (i : Z) : result nat := py_index (players self) i.

(** The player object at a position of the list. *)
Definition player_at (self : t) (p : nat) : result Player.t :=
  match players self !! p with
  | Some pl => Ok pl
  | None => Raise IndexError
  end.

Definition with_player (p : nat) (pl : Player.t) (self : t) : t :=
  with_players (<[p:=pl]> (players self)) self.

(** [current] and [next_player] as positions in [players]. *)
Definition current (self : t) : result nat := player_pos self (current_index self).

Definition next_player (self : t) : result nat :=
  let n := Z.of_nat (length (players self)) in
  if decide (n = 0) then Raise ZeroDivisionError
  else player_pos self ((current_index self + direction self) `mod` n).

Definition advance_turn (self : t) (steps : Z) : result t :=
  let n := Z.of_nat (length (players self)) in
  if decide (n = 0) then Raise ZeroDivisionError
  else Ok (with_current_index
             ((current_index self + steps * direction self) `mod` n) self).

Definition reverse (self : t) : t := with_direction (direction self * -1) self.
End GameState.

(** ** Decision procedures *)

(** [max(counts.items(), key=lambda kv: kv[1])[0]] over the dictionary of
    the four standard colours: the first colour with the largest count. *)
Definition most_held (count : string → nat) : string :=
  fst (foldl (λ best c, if (snd best <? count c)%nat then (c, count c) else best)
             (Color.RED, count Color.RED)
             [Color.YELLOW; Color.GREEN; Color.BLUE]).

Module HumanPlayer.
(** [choose_move], with the two values read from the terminal as
    arguments: [choice] is what [_read_int] returned for the card number
    and [asked] what [_ask_color] returns when it is called. *)
Definition choose_move (self : Player.t) (state : GameState.t)
    (choice : Z) (asked : string) : result Move.t :=
  top ← Deck.top_discard (GameState.deck state);
  if decide (choice = 0) then Ok Move.draw
  else
    i ← py_index (Player.hand self) (choice - 1);
    match Player.hand self !! i with
    | None => Raise IndexError
    | Some chosen =>
        if negb (Card.matches chosen top (GameState.active_color state))
        then Ok Move.invalid
        else
          let chosen_color :=
            if Rank.is_wild (Card.rank chosen) then Some asked
            else GameState.active_color state in
          if bool_decide (GameState.pending_draw state > 0)
             && negb (bool_decide
                        (Card.rank chosen ∈ [Rank.DRAW_TWO; Rank.WILD_DRAW_FOUR]))
          then Ok Move.invalid
          else Ok (Move.play chosen chosen_color false)
    end.
End HumanPlayer.

Module AggressiveAI.
Definition _best_stack_card (self : Player.t) : option Card.t :=
  List.find (λ c, bool_decide (Card.rank c ∈ [Rank.DRAW_TWO; Rank.WILD_DRAW_FOUR]))
            (Player.hand self).

Definition _best_color_choice (self : Player.t) : string :=
  most_held (Player.count_color self).

(** The [for c in self.hand] loop of [choose_move]: [inl m] when the loop
    returns the move [m], [inr best] when it runs to its end. *)
Fixpoint prefer_action (self : Player.t) (state : GameState.t) (top : Card.t)
    (cards : list Card.t) (best : option Card.t) : Move.t + option Card.t :=
  match cards with
  | [] => inr best
  | c :: cards' =>
      let keep := match best with None => Some c | Some _ => best end in
      if negb (Card.matches c top (GameState.active_color state)) then
        prefer_action self state top cards' best
      else if decide (Card.rank c = Rank.WILD_DRAW_FOUR) then
        let legal_wdf := negb (Player.has_color self (GameState.active_color state)) in
        if legal_wdf then inl (Move.play c (Some (_best_color_choice self)) true)
        else prefer_action self state top cards' keep
      else if bool_decide (Card.rank c ∈ [Rank.DRAW_TWO; Rank.SKIP; Rank.REVERSE]) then
        inl (Move.play c (GameState.active_color state) false)
      else prefer_action self state top cards' keep
  end.

Definition choose_move (self : Player.t) (state : GameState.t) : result Move.t :=
  top ← Deck.top_discard (GameState.deck state);
  if bool_decide (GameState.pending_draw state > 0) then
    match _best_stack_card self with
    | Some stack =>
        let chosen_color :=
          if Rank.is_wild (Card.rank stack) then Some (_best_color_choice self)
          else GameState.active_color state in
        Ok (Move.play stack chosen_color true)
    | None => Ok Move.draw
    end
  else
    match prefer_action self state top (Player.hand self) None with
    | inl m => Ok m
    | inr (Some best) =>
        let chosen_color :=
          if Rank.is_wild (Card.rank best) then Some (_best_color_choice self)
          else GameState.active_color state in
        Ok (Move.play best chosen_color false)
    | inr None => Ok Move.draw
    end.
End AggressiveAI.

(** ** Game engine *)

Module Game.
Import GameState.

Record t : Type := mk {
  player_count : Z;
  no_mercy : bool
}.

Definition new (player_count : Z) (no_mercy : bool) : t :=
  mk (Z.max 2 player_count) no_mercy.

(** [state.players[p].draw(state.deck, count)] *)
Definition player_draws (p : nat) (count : Z) (state : GameState.t) (g : Rng)
  : result (GameState.t * Rng) :=
  pl ← player_at state p;
  let '(pl', d, g') := Player.draw pl (deck state) count g in
  Ok (with_deck d (with_player p pl' state), g').

Definition _apply_initial_effect (start : Card.t) (state : GameState.t)
  : result GameState.t :=
  if decide (Card.rank start = Rank.SKIP) then advance_turn state 1
  else if decide (Card.rank start = Rank.REVERSE) then Ok (reverse state)
  else if decide (Card.rank start = Rank.DRAW_TWO) then
    Ok (with_pending_draw (pending_draw state + 2) state)
  else Ok state.

Definition _player_had_active_color_before_wdf (player : Player.t)
    (state : GameState.t) : bool :=
  let active := active_color state in
  existsb (λ c, negb (Rank.is_wild (Card.rank c))
                && bool_decide (Some (Card.color c) = active))
          (Player.hand player).

Definition _choose_color_auto (player : Player.t) : string :=
  most_held (Player.count_color player).

Definition _check_win (p : Player.t) : bool :=
  bool_decide (Player.hand p = []).

(** [_play_card], lines 396 to 399: the card leaves the hand of [player]
    (at position [p] of [state.players]) for the discard pile, and a wild
    card sets the active colour. *)
Definition place_card (p : nat) (card : Card.t) (chosen_color : option string)
    (state : GameState.t) : result GameState.t :=
  player ← player_at state p;
  h ← list_remove card (Player.hand player);
  let state := with_player p (Player.with_hand h player) state in
  let state := with_deck (Deck.discard (deck state) card) state in
  Ok (if Rank.is_wild (Card.rank card) then with_active_color chosen_color state
      else state).

(** [_play_card], lines 407 to 444: the effect of the rank. *)
Definition apply_rank (p : nat) (card : Card.t) (state : GameState.t)
    (challenge_flag : bool) (g : Rng) : result (GameState.t * Rng) :=
  if decide (Card.rank card = Rank.SKIP) then
    s ← advance_turn state 2; Ok (s, g)
  else if decide (Card.rank card = Rank.REVERSE) then
    let state := reverse state in
    if decide (length (players state) = 2%nat) then
      s ← advance_turn state 2; Ok (s, g)
    else
      s ← advance_turn state 1; Ok (s, g)
  else if decide (Card.rank card = Rank.DRAW_TWO) then
    let state := with_pending_draw (pending_draw state + 2) state in
    s ← advance_turn state 1; Ok (s, g)
  else if decide (Card.rank card = Rank.WILD) then
    s ← advance_turn state 1; Ok (s, g)
  else if decide (Card.rank card = Rank.WILD_DRAW_FOUR) then
    o ← next_player state;
    opponent ← player_at state o;
    player ← player_at state p;
    let illegal := _player_had_active_color_before_wdf player state in
    let opponent_challenges :=
      bool_decide (Player.class opponent = Player.AggressiveAI) || challenge_flag in
    if opponent_challenges then
      if illegal then
        '(state, g') ← player_draws p 4 state g;
        s ← advance_turn state 1; Ok (s, g')
      else
        '(state, g') ← player_draws o 6 state g;
        s ← advance_turn state 1; Ok (s, g')
    else
      let state := with_pending_draw (pending_draw state + 4) state in
      s ← advance_turn state 1; Ok (s, g)
  else
    s ← advance_turn state 1; Ok (s, g).

Definition _play_card (p : nat) (card : Card.t) (chosen_color : option string)
    (state : GameState.t) (challenge_flag : bool) (g : Rng)
  : result (GameState.t * Rng) :=
  state ← place_card p card chosen_color state;
  apply_rank p card state challenge_flag g.

(** One pass through the body of the [while True] loop of [start], for
    the move that [current.choose_move(state)] returned.  The boolean of
    the result says whether the loop was left by [break]. *)
Definition turn (state : GameState.t) (move : Move.t) (g : Rng)
  : result (GameState.t * Rng * bool) :=
  p ← current state;
  current ← player_at state p;
  if decide (Move.type_ move = Move.INVALID) then
    '(state, g') ← player_draws p 1 state g;
    s ← advance_turn state 1;
    Ok (s, g', false)
  else if decide (Move.type_ move = Move.DRAW) then
    '(state, g') ←
      (if bool_decide (pending_draw state > 0) then
         '(state, g') ← player_draws p (pending_draw state) state g;
         Ok (with_pending_draw 0 state, g')
       else
         let '(drawn, d, g') := Deck.draw (deck state) g in
         let state := with_deck d state in
         match drawn with
         | Some drawn =>
             top ← Deck.top_discard (deck state);
             if Card.matches drawn top (active_color state) && GameState.no_mercy state
             then
               let pl := Player.with_hand (Player.hand current ++ [drawn]) current in
               let state := with_player p pl state in
               _play_card p drawn
                 (if Rank.is_wild (Card.rank drawn) then Some (_choose_color_auto pl)
                  else active_color state)
                 state false g'
             else
               let pl := Player.with_hand (Player.hand current ++ [drawn]) current in
               s ← advance_turn (with_player p pl state) 1;
               Ok (s, g')
         | None =>
             s ← advance_turn state 1;
             Ok (s, g')
         end);
    pl ← player_at state p;
    Ok (state, g', _check_win pl)
  else
    match Move.card move with
    | None => s ← advance_turn state 1; Ok (s, g, false)
    | Some card =>
        if negb (bool_decide (card ∈ Player.hand current)) then
          s ← advance_turn state 1; Ok (s, g, false)
        else
          top ← Deck.top_discard (deck state);
          if negb (Card.matches card top (active_color state)) then
            s ← advance_turn state 1; Ok (s, g, false)
          else
            '(state, g') ←
              _play_card p card
                (if Rank.is_wild (Card.rank card) then Move.chosen_color move
                 else active_color state)
                state (Move.challenge move) g;
            pl ← player_at state p;
            Ok (state, g', _check_win pl)
    end.

(** The players of [start]: the human first, then [AI-1], [AI-2], ... *)
Definition make_players (player_count : Z) : list Player.t :=
  Player.mk Player.HumanPlayer "You" []
  :: map (λ i : Z, Player.mk Player.AggressiveAI ("AI-" +:+ pretty i) [])
         (seqZ 1 (player_count - 1)).

(** [for p in players: p.draw(deck, 7)], over the positions of the list. *)
Fixpoint deal (positions : list nat) (state : GameState.t) (g : Rng)
  : result (GameState.t * Rng) :=
  match positions with
  | [] => Ok (state, g)
  | p :: positions' =>
      '(state, g') ← player_draws p 7 state g;
      deal positions' state g'
  end.

(** [start] up to the [while True] loop. *)
Definition setup (self : t) (fuel : nat) (g : Rng) : result (GameState.t * Rng) :=
  let '(d, g) := Deck.new g in
  let players := make_players (player_count self) in
  let state := GameState.new d players (no_mercy self) in
  '(state, g) ← deal (seq 0 (length players)) state g;
  '(d, g) ← Deck.start_discard_non_wild fuel (deck state) g;
  let state := with_deck d state in
  top ← Deck.top_discard (deck state);
  let state := with_active_color (Some (Card.color top)) state in
  top ← Deck.top_discard (deck state);
  state ← _apply_initial_effect top state;
  Ok (state, g).

(** The states of the loop of [start]: [reachable state g over] when the
    loop can stand at its head with [state] and the tape [g] ([over] is
    false), or has just been left by [break] ([over] is true).  The move
    of each turn is whatever the decision procedure of the current player
    returns, so it is left arbitrary. *)
Inductive reachable : GameState.t → Rng → bool → Prop :=
| reach_setup self fuel g state g' :
    setup self fuel g = Ok (state, g') →
    reachable state g' false
| reach_turn state g move state' g' over :
    reachable state g false →
    turn state move g = Ok (state', g', over) →
    reachable state' g' over.
End Game.

(** The cards of a game: both piles and every hand. *)
Definition deck_cards (d : Deck.t) : list Card.t :=
  Deck.draw_pile d ++ Deck.discard_pile d.

Definition hands (ps : list Player.t) : list Card.t :=
  ps ≫= Player.hand.

Definition all_cards (state : GameState.t) : list Card.t :=
  deck_cards (GameState.deck state) ++ hands (GameState.players state).

(** The number of cards that a deck can still hand out: its draw pile, and
    its discard pile but for the top card. *)
Definition supply (d : Deck.t) : nat :=
  (length (Deck.draw_pile d) + pred (length (Deck.discard_pile d)))%nat.

(** The number of cards of a face among [cards]. *)
Definition count_face (color rank : string) (cards : list Card.t) : nat :=
  length (filter (λ c, Card.color c = color ∧ Card.rank c = rank) cards).

(** The composition of a standard deck: 108 cards; in each of the four
    colours one ZERO and two of each of ONE to NINE, SKIP, REVERSE and
    DRAW_TWO; four WILD and four WILD_DRAW_FOUR. *)
Definition standard_composition (cards : list Card.t) : Prop :=
  length cards = 108%nat
  ∧ Forall (λ c,
      count_face c Rank.ZERO cards = 1%nat
      ∧ Forall (λ r, count_face c r cards = 2%nat)
               [Rank.ONE; Rank.TWO; Rank.THREE; Rank.FOUR; Rank.FIVE; Rank.SIX;
                Rank.SEVEN; Rank.EIGHT; Rank.NINE;
                Rank.SKIP; Rank.REVERSE; Rank.DRAW_TWO])
      [Color.RED; Color.YELLOW; Color.GREEN; Color.BLUE]
  ∧ count_face Color.WILD Rank.WILD cards = 4%nat
  ∧ count_face Color.WILD Rank.WILD_DRAW_FOUR cards = 4%nat.

(** [state] after [advance_turn(steps)], for a list of players that is not
    empty. *)
Definition stepped (steps : Z) (state : GameState.t) : GameState.t :=
  GameState.with_current_index
    ((GameState.current_index state + steps * GameState.direction state)
       `mod` Z.of_nat (length (GameState.players state))) state.

(** ** Scenarios

    Tables of two players, the human then one automated player, cut from
    the cards of [Deck._build]: the hands and the discard pile are given by
    the [uid]s of their cards and the draw pile holds what is left, in the
    order of creation. *)
Module Scenario.
Definition pick (uids : list nat) : list Card.t :=
  omap (λ i, Deck.build_cards !! i) uids.

Definition table (human automated discards : list nat) (draws : list Card.t)
    (index : Z) (active : string) (pending : Z) : GameState.t :=
  GameState.mk
    (Deck.mk draws (pick discards))
    [Player.mk Player.HumanPlayer "You" (pick human);
     Player.mk Player.AggressiveAI "AI-1" (pick automated)]
    index 1 (Some active) pending true.

Definition left_over (uids : list nat) : list Card.t :=
  filter (λ c, Card.uid c ∉ uids) Deck.build_cards.

Definition red_draw_two : Card.t := Card.mk 12%nat Color.RED Rank.DRAW_TWO.
Definition wild_draw_four : Card.t := Card.mk 101%nat Color.WILD Rank.WILD_DRAW_FOUR.

(** RED FIVE is up and the active colour is RED.  The human holds RED
    DRAW_TWO, RED SEVEN, YELLOW FIVE, GREEN FIVE and BLUE FIVE, the
    automated player BLUE NINE, GREEN FOUR, YELLOW FOUR and RED THREE. *)
Definition opening : GameState.t :=
  table [12; 7; 30; 55; 80]%nat [84; 54; 29; 3]%nat [5]%nat
        (left_over [12; 7; 30; 55; 80; 84; 54; 29; 3; 5]%nat) 0 Color.RED 0.

(** [opening] after the human has played RED DRAW_TWO: two cards are
    pending on the automated player, whose turn it is. *)
Definition stacked : GameState.t :=
  table [7; 30; 55; 80]%nat [84; 54; 29; 3]%nat [12; 5]%nat
        (left_over [12; 7; 30; 55; 80; 84; 54; 29; 3; 5]%nat) 1 Color.RED 2.

(** RED THREE is up and the active colour is RED.  The human holds RED
    FIVE, a WILD_DRAW_FOUR and GREEN SEVEN. *)
Definition holding_red : GameState.t :=
  table [5; 101; 57]%nat [84; 54; 29]%nat [3]%nat
        (left_over [5; 101; 57; 84; 54; 29; 3]%nat) 0 Color.RED 0.

(** The same table, but the human holds BLUE FIVE instead of RED FIVE. *)
Definition holding_blue : GameState.t :=
  table [80; 101; 57]%nat [84; 54; 29]%nat [3]%nat
        (left_over [80; 101; 57; 84; 54; 29; 3]%nat) 0 Color.RED 0.

(** RED FIVE is up; the human holds RED SKIP, RED REVERSE and RED SEVEN. *)
Definition two_actions : GameState.t :=
  table [10; 11; 7]%nat [84; 54; 29]%nat [5]%nat
        (left_over [10; 11; 7; 84; 54; 29; 5]%nat) 0 Color.RED 0.

(** The same table with a third player, who holds YELLOW ONE. *)
Definition three_players : GameState.t :=
  GameState.with_players
    (GameState.players two_actions
       ++ [Player.mk Player.AggressiveAI "AI-2" (pick [26]%nat)])
    (GameState.with_deck
       (Deck.mk (left_over [10; 11; 7; 84; 54; 29; 5; 26]%nat) (pick [5]%nat))
       two_actions).

Definition red_skip : Card.t := Card.mk 10%nat Color.RED Rank.SKIP.
Definition red_reverse : Card.t := Card.mk 11%nat Color.RED Rank.REVERSE.
Definition red_seven : Card.t := Card.mk 7%nat Color.RED Rank.SEVEN.

(** [two_actions] with four cards pending on the human. *)
Definition under_pending : GameState.t :=
  GameState.with_pending_draw 4 two_actions.

(** A WILD_DRAW_FOUR that chose BLUE is up, with four cards pending on the
    automated player, who holds BLUE NINE, RED DRAW_TWO and YELLOW FOUR. *)
Definition blue_chosen : GameState.t :=
  table [7; 30; 55]%nat [84; 12; 29]%nat [101; 5]%nat
        (left_over [7; 30; 55; 84; 12; 29; 101; 5]%nat) 1 Color.BLUE 4.

(** RED THREE is up; it is the turn of the automated player, who holds a
    WILD_DRAW_FOUR, BLUE FIVE, BLUE NINE and GREEN FOUR, and no red card. *)
Definition automated_wild : GameState.t :=
  table [7; 30; 55]%nat [101; 80; 84; 54]%nat [3]%nat
        (left_over [7; 30; 55; 101; 80; 84; 54; 3]%nat) 1 Color.RED 0.

(** RED FIVE is up and the human holds RED SEVEN alone. *)
Definition last_card : GameState.t :=
  table [7]%nat [84; 54; 29]%nat [5]%nat
        (left_over [7; 84; 54; 29; 5]%nat) 0 Color.RED 0.

(** A deck that is nearly spent: RED ZERO is the whole draw pile and GREEN
    ZERO the whole discard pile; the automated player holds the cards 1
    to 49 and the human the cards 51 to 107, green cards and the eight
    wild ones among them.  The active colour is GREEN. *)
Definition spent : GameState.t :=
  table (seq 51 57)%nat (seq 1 49)%nat [50]%nat (pick [0]%nat) 0 Color.GREEN 0.
End Scenario.

(** What the loop of [start] relies on without checking it: a player at
    least ([Game.__init__] asks for two or more), a current index inside
    the list, a direction of one step, no negative pending draw, and a card
    on the discard pile. *)
Definition well_formed (state : GameState.t) : Prop :=
  (1 ≤ length (GameState.players state))%nat
  ∧ 0 ≤ GameState.current_index state < Z.of_nat (length (GameState.players state))
  ∧ (GameState.direction state = 1 ∨ GameState.direction state = -1)
  ∧ 0 ≤ GameState.pending_draw state
  ∧ Deck.discard_pile (GameState.deck state) ≠ [].

(** * Properties *)

(** ** Shuffling permutes *)

Section shuffle_facts.
Context {A : Type}.
Implicit Types x : list A.

Lemma swap_perm i j x : swap i j x ≡ₚ x.
Proof.
  unfold swap.
  destruct (x !! i) as [a|] eqn:Hi; [|done].
  destruct (x !! j) as [b|] eqn:Hj; [|done].
  by apply Permutation_insert_swap.
Qed.

Lemma shuffle_from_perm i x g : (shuffle_from i x g).1 ≡ₚ x.
Proof.
  revert x g. induction i as [|i IH]; intros x g; simpl; [done|].
  rewrite IH. apply swap_perm.
Qed.

Lemma shuffle_perm x g : (shuffle x g).1 ≡ₚ x.
Proof. apply shuffle_from_perm. Qed.

Lemma shuffle_nil g : shuffle (@nil A) g = ([], g).
Proof. done. Qed.
End shuffle_facts.

(** ** The deck *)

Section deck_facts.
Implicit Types (d : Deck.t) (g : Rng) (c : Card.t).

Lemma reshuffle_unfold d g top rest :
  Deck.discard_pile d = top :: rest →
  Deck._reshuffle_from_discard d g
  = (Deck.mk (Deck.draw_pile d ++ (shuffle rest g).1) [top], (shuffle rest g).2).
Proof.
  intros Hd. unfold Deck._reshuffle_from_discard. rewrite Hd.
  by destruct (shuffle rest g).
Qed.

(** What [Deck.draw] does, by the shape of the two piles. *)
Lemma draw_pile_cons d g c pile :
  Deck.draw_pile d = c :: pile →
  Deck.draw d g = (Some c, Deck.mk pile (Deck.discard_pile d), g).
Proof. intros Hd. unfold Deck.draw. by rewrite Hd; simpl; rewrite Hd. Qed.

Lemma draw_nothing d g :
  Deck.draw_pile d = [] → (length (Deck.discard_pile d) ≤ 1)%nat →
  Deck.draw d g = (None, d, g).
Proof.
  intros Hd Hlen. unfold Deck.draw, Deck._reshuffle_from_discard. rewrite Hd.
  destruct d as [dp [|top [|? ?]]]; simpl in *; subst; try done; lia.
Qed.

Lemma draw_recycles d g top rest :
  Deck.draw_pile d = [] → Deck.discard_pile d = top :: rest → rest ≠ [] →
  ∃ c pile, (shuffle rest g).1 = c :: pile
    ∧ Deck.draw d g = (Some c, Deck.mk pile [top], (shuffle rest g).2).
Proof.
  intros Hd Hdis Hrest. unfold Deck.draw. rewrite Hd.
  rewrite (reshuffle_unfold _ _ _ _ Hdis), Hd. simpl.
  destruct (shuffle rest g).1 as [|c pile] eqn:Hs.
  - pose proof (shuffle_perm rest g) as Hp. rewrite Hs in Hp.
    by apply Permutation_nil_l in Hp.
  - eauto.
Qed.

(** The three cases are all there is. *)
Lemma draw_cases d g :
  (Deck.draw_pile d = [] ∧ (length (Deck.discard_pile d) ≤ 1)%nat
     ∧ Deck.draw d g = (None, d, g))
  ∨ (∃ c d' g', Deck.draw d g = (Some c, d', g')
       ∧ c :: deck_cards d' ≡ₚ deck_cards d
       ∧ supply d = S (supply d')
       ∧ (Deck.draw_pile d ≠ [] ∨ (2 ≤ length (Deck.discard_pile d))%nat)
       ∧ Deck.top_discard d' = Deck.top_discard d).
Proof.
  destruct (Deck.draw_pile d) as [|c pile] eqn:Hd.
  - destruct (Deck.discard_pile d) as [|top rest] eqn:Hdis.
    + left. split_and!; [done|simpl; lia|]. apply draw_nothing; [done|].
      rewrite Hdis. simpl. lia.
    + destruct rest as [|c' rest'] eqn:Hrest.
      * left. split_and!; [done|simpl; lia|]. apply draw_nothing; [done|].
        rewrite Hdis. simpl. lia.
      * right. destruct (draw_recycles d g top (c' :: rest')) as (c & pile & Hs & Hdraw);
          [done..|].
        exists c, (Deck.mk pile [top]), (shuffle (c' :: rest') g).2.
        split_and!; [done| | | |].
        -- pose proof (shuffle_perm (c' :: rest') g) as Hp. rewrite Hs in Hp.
           unfold deck_cards. rewrite Hd, Hdis. simpl.
           change (c :: pile ++ [top]) with ((c :: pile) ++ [top]).
           by rewrite Hp, (comm (++)).
        -- unfold supply. rewrite Hd, Hdis. simpl.
           pose proof (shuffle_perm (c' :: rest') g) as Hp. rewrite Hs in Hp.
           apply Permutation_length in Hp. simpl in Hp. lia.
        -- right. simpl. lia.
        -- unfold Deck.top_discard. by rewrite Hdis.
  - right. exists c, (Deck.mk pile (Deck.discard_pile d)), g.
    split_and!; [by apply draw_pile_cons| | | |done].
    + unfold deck_cards. by rewrite Hd.
    + unfold supply. by rewrite Hd.
    + by left.
Qed.
End deck_facts.

(** ** Drawing into a hand *)

Section draw_facts.
Implicit Types (d : Deck.t) (g : Rng) (h : list Card.t).

Lemma supply_zero d :
  Deck.draw_pile d = [] → (length (Deck.discard_pile d) ≤ 1)%nat → supply d = 0%nat.
Proof. intros Hd Hlen. unfold supply. rewrite Hd. simpl. lia. Qed.

(** [count] calls of [deck.draw()] hand out the first [count] cards of the
    supply, or all of it when it is smaller, and no call fails. *)
Lemma draw_loop_spec count h d g :
  ∃ drawn d' g',
    Player.draw_loop count h d g = (h ++ drawn, d', g')
    ∧ length drawn = (count `min` supply d)%nat
    ∧ drawn ++ deck_cards d' ≡ₚ deck_cards d
    ∧ (drawn = [] → d' = d)
    ∧ (Deck.discard_pile d ≠ [] → Deck.top_discard d' = Deck.top_discard d).
Proof.
  revert h d g. induction count as [|count IH]; intros h d g.
  { exists [], d, g. simpl. by rewrite app_nil_r. }
  simpl. destruct (draw_cases d g) as [(Hd & Hlen & ->)|(c & d1 & g1 & -> & Hperm & Hsup & _ & Htop)].
  - destruct (IH h d g) as (drawn & d' & g' & -> & Hl & Hp & Hnil & Ht).
    exists drawn, d', g'. split_and!; try done.
    rewrite Hl, (supply_zero d) by done. lia.
  - destruct (IH (h ++ [c]) d1 g1) as (drawn & d' & g' & -> & Hl & Hp & Hnil & Ht).
    exists (c :: drawn), d', g'. split_and!.
    + by rewrite <-app_assoc.
    + simpl. rewrite Hl, Hsup. lia.
    + simpl. by rewrite Hp.
    + done.
    + intros Hne. rewrite <-Htop. apply Ht.
      unfold Deck.top_discard in Htop.
      destruct (Deck.discard_pile d1), (Deck.discard_pile d); naive_solver.
Qed.

Lemma Player_draw_spec (self : Player.t) d (count : Z) g :
  ∃ drawn d' g',
    Player.draw self d count g = (Player.with_hand (Player.hand self ++ drawn) self, d', g')
    ∧ length drawn = (Z.to_nat count `min` supply d)%nat
    ∧ drawn ++ deck_cards d' ≡ₚ deck_cards d
    ∧ (drawn = [] → d' = d)
    ∧ (Deck.discard_pile d ≠ [] → Deck.top_discard d' = Deck.top_discard d).
Proof.
  unfold Player.draw.
  destruct (draw_loop_spec (Z.to_nat count) (Player.hand self) d g)
    as (drawn & d' & g' & -> & ?). by exists drawn, d', g'.
Qed.
End draw_facts.

(** ** Hands and positions *)

Section state_facts.
Import GameState.
Implicit Types (state s : GameState.t) (pl : Player.t) (ps : list Player.t).

Lemma hands_insert ps p pl pl' :
  ps !! p = Some pl →
  ∃ others, hands ps ≡ₚ Player.hand pl ++ others
    ∧ hands (<[p:=pl']> ps) ≡ₚ Player.hand pl' ++ others.
Proof.
  intros Hp. exists (hands (take p ps) ++ hands (drop (S p) ps)).
  pose proof (lookup_lt_Some _ _ _ Hp) as Hlt.
  rewrite insert_take_drop by done.
  rewrite <-(take_drop_middle ps p pl Hp) at 1.
  unfold hands. rewrite !bind_app, !bind_cons. split.
  - by rewrite (assoc (++)), (comm (++) _ (Player.hand pl)), <-(assoc (++)).
  - by rewrite (assoc (++)), (comm (++) _ (Player.hand pl')), <-(assoc (++)).
Qed.

Lemma player_at_Ok state p pl :
  player_at state p = Ok pl ↔ players state !! p = Some pl.
Proof. unfold player_at. destruct (players state !! p); naive_solver. Qed.

Lemma py_index_lt {A} (l : list A) i p : py_index l i = Ok p → (p < length l)%nat.
Proof. unfold py_index. intros H. repeat case_decide; simplify_eq; lia. Qed.

Lemma current_player state p :
  current state = Ok p → ∃ pl, player_at state p = Ok pl.
Proof.
  intros H%py_index_lt. apply lookup_lt_is_Some_2 in H as [pl H].
  exists pl. by apply player_at_Ok.
Qed.

Lemma advance_turn_Ok state steps :
  players state ≠ [] →
  advance_turn state steps
  = Ok (with_current_index
          ((current_index state + steps * direction state)
             `mod` Z.of_nat (length (players state))) state).
Proof.
  intros Hne. unfold advance_turn. case_decide as Hn; [|done].
  destruct (players state); [done|simpl in Hn; lia].
Qed.

Lemma players_nonempty state p pl : players state !! p = Some pl → players state ≠ [].
Proof. by destruct (players state). Qed.

Lemma insert_nonempty {A} (l : list A) i x : l ≠ [] → <[i:=x]> l ≠ [].
Proof.
  intros Hne Heq. apply (f_equal length) in Heq.
  rewrite length_insert in Heq. by destruct l.
Qed.
End state_facts.

(** ** Matching *)

Lemma is_wild_spec rank :
  Rank.is_wild rank = true ↔ rank = Rank.WILD ∨ rank = Rank.WILD_DRAW_FOUR.
Proof.
  unfold Rank.is_wild, Rank.WILDS. rewrite bool_decide_eq_true.
  rewrite !elem_of_cons, elem_of_nil. tauto.
Qed.

(** C4.  [Card.matches] is a total boolean function of the candidate, the top
    of the discard pile and the active colour, and it answers true exactly
    when the candidate is wild, or the top is wild and the candidate has the
    active colour or the rank of the top, or neither is wild and the
    candidate has the colour or the rank of the top. *)
Theorem matches_iff (candidate top : Card.t) (activeColor : option string) :
  Card.matches candidate top activeColor = true ↔
    Card.rank candidate ∈ Rank.WILDS
    ∨ (Card.rank top ∈ Rank.WILDS
       ∧ (Some (Card.color candidate) = activeColor
          ∨ Card.rank candidate = Card.rank top))
    ∨ ((Card.rank candidate ∉ Rank.WILDS) ∧ (Card.rank top ∉ Rank.WILDS)
       ∧ (Card.color candidate = Card.color top
          ∨ Card.rank candidate = Card.rank top)).
Proof.
  unfold Card.matches, Rank.is_wild.
  destruct (bool_decide (Card.rank candidate ∈ Rank.WILDS)) eqn:Hc.
  { apply bool_decide_eq_true in Hc. tauto. }
  apply bool_decide_eq_false in Hc.
  destruct (bool_decide (Card.rank top ∈ Rank.WILDS)) eqn:Ht.
  - apply bool_decide_eq_true in Ht.
    rewrite orb_true_iff, !bool_decide_eq_true. tauto.
  - apply bool_decide_eq_false in Ht.
    rewrite orb_true_iff, !bool_decide_eq_true. tauto.
Qed.

(** ** Reshuffling and drawing *)

(** C6.  With a discard pile [top :: rest], reshuffling leaves [top] alone
    on the discard pile and appends a permutation of [rest] to the draw
    pile.  So from an empty draw pile and a discard pile of two cards or
    more, [draw] returns one of the cards of [rest], and [top_discard]
    answers [top] after the call as it did before. *)
Theorem reshuffle_keeps_top (d : Deck.t) (g : Rng) (top : Card.t) (rest : list Card.t) :
  Deck.discard_pile d = top :: rest →
  (∃ rest',
     (Deck._reshuffle_from_discard d g).1 = Deck.mk (Deck.draw_pile d ++ rest') [top]
     ∧ rest' ≡ₚ rest)
  ∧ (Deck.draw_pile d = [] → (2 ≤ length (Deck.discard_pile d))%nat →
     ∃ c d' g',
       Deck.draw d g = (Some c, d', g')
       ∧ c :: Deck.draw_pile d' ≡ₚ rest
       ∧ Deck.discard_pile d' = [top]
       ∧ Deck.top_discard d = Ok top
       ∧ Deck.top_discard d' = Ok top).
Proof.
  intros Hdis. split.
  - exists (shuffle rest g).1. rewrite (reshuffle_unfold _ _ _ _ Hdis).
    split; [done|apply shuffle_perm].
  - intros Hd Hlen.
    destruct (draw_recycles d g top rest) as (c & pile & Hs & Hdraw); [done..| |].
    { intros ->. rewrite Hdis in Hlen. simpl in Hlen. lia. }
    exists c, (Deck.mk pile [top]), (shuffle rest g).2. split_and!; try done.
    + simpl. rewrite <-Hs. apply shuffle_perm.
    + unfold Deck.top_discard. by rewrite Hdis.
Qed.

Lemma reshuffle_keeps_top_witness :
  let c (i : nat) := Card.mk i Color.RED Rank.FIVE in
  let d := Deck.mk [] [c 0%nat; c 1%nat; c 2%nat] in
  (∃ rest', (Deck._reshuffle_from_discard d [1%nat]).1 = Deck.mk rest' [c 0%nat]
            ∧ rest' ≡ₚ [c 1%nat; c 2%nat])
  ∧ ∃ x d' g', Deck.draw d [1%nat] = (Some x, d', g')
      ∧ x :: Deck.draw_pile d' ≡ₚ [c 1%nat; c 2%nat]
      ∧ Deck.discard_pile d' = [c 0%nat]
      ∧ Deck.top_discard d = Ok (c 0%nat)
      ∧ Deck.top_discard d' = Ok (c 0%nat).
Proof.
  intros c d.
  destruct (reshuffle_keeps_top d [1%nat] (c 0%nat) [c 1%nat; c 2%nat] eq_refl)
    as [H1 H2].
  split; [exact H1|]. apply H2; [reflexivity|simpl; lia].
Defined.

(** C7.  [Deck.draw] returns [None] exactly when the draw pile is empty and
    the discard pile holds at most one card, and a card in every other
    case.  [Player.draw] never fails: it appends the cards that its [count]
    calls return, which are [count] cards when the deck can supply as many
    and all that it can supply otherwise, and leaves the deck as it is when
    nothing comes. *)
Theorem draw_none_iff (d : Deck.t) (g : Rng) :
  ((Deck.draw d g).1.1 = None
     ↔ Deck.draw_pile d = [] ∧ (length (Deck.discard_pile d) ≤ 1)%nat)
  ∧ (is_Some (Deck.draw d g).1.1
     ↔ ¬ (Deck.draw_pile d = [] ∧ (length (Deck.discard_pile d) ≤ 1)%nat))
  ∧ ∀ (self : Player.t) (count : Z), ∃ drawn d' g',
      Player.draw self d count g
      = (Player.with_hand (Player.hand self ++ drawn) self, d', g')
      ∧ length drawn = (Z.to_nat count `min` supply d)%nat
      ∧ drawn ++ deck_cards d' ≡ₚ deck_cards d
      ∧ (drawn = [] → d' = d).
Proof.
  split_and!.
  - destruct (draw_cases d g) as [(Hd & Hlen & ->)|(c & d' & g' & -> & _ & _ & Hc & _)];
      simpl; [done|]. split; [done|]. intros [Hd Hlen]. destruct Hc; [done|lia].
  - destruct (draw_cases d g) as [(Hd & Hlen & ->)|(c & d' & g' & -> & _ & _ & Hc & _)];
      simpl.
    + split; [by intros [? ?]|tauto].
    + split; [|by eauto]. intros _ [Hd Hlen]. destruct Hc; [done|lia].
  - intros self count.
    destruct (Player_draw_spec self d count g) as (drawn & d' & g' & ? & ? & ? & ? & _).
    by exists drawn, d', g'.
Qed.

(** ** Reading results *)

Lemma bind_Ok {A B : Type} (m : result A) (k : A → result B) (r : B) :
  m ≫= k = Ok r ↔ ∃ a, m = Ok a ∧ k a = Ok r.
Proof.
  destruct m as [a| |]; simpl; split; try done; try (by intros (? & ? & ?)).
  - intros H. by exists a.
  - by intros (? & [= ->] & ?).
Qed.

(** Splits a hypothesis [m ≫= k = Ok r] into the steps that produced [r]. *)
Ltac inv_Ok H :=
  repeat match type of H with
  | _ ≫= _ = Ok _ =>
      let a := fresh "a" in let Ha := fresh "Ha" in
      apply bind_Ok in H as (a & Ha & H); try destruct a as [? ?]; simpl in H
  | (if ?b then _ else _) = Ok _ => destruct b eqn:?; simpl in H
  | Ok _ = Ok _ => injection H as H; try subst
  end.

Section list_remove_facts.
Context {A : Type} `{EqDecision A}.
Implicit Types (x : A) (l : list A).

Lemma list_remove_Ok x l l' : list_remove x l = Ok l' → l ≡ₚ x :: l'.
Proof.
  revert l'. induction l as [|y l IH]; intros l'; simpl; [done|].
  case_decide as Hy.
  - intros [= ->]. by subst.
  - intros H1. apply bind_Ok in H1 as (l'' & Hl'' & [= <-]).
    by rewrite (IH _ Hl''), Permutation_swap.
Qed.

Lemma list_remove_elem_of x l : x ∈ l → ∃ l', list_remove x l = Ok l'.
Proof.
  induction l as [|y l IH]; [by intros ?%elem_of_nil|].
  intros Hx. simpl. case_decide as Hy; [by eauto|].
  apply elem_of_cons in Hx as [->|Hx]; [done|].
  destruct (IH Hx) as [l' ->]. by eauto.
Qed.

(** Removing an element that [f] rejects does not change [existsb f]. *)
Lemma list_remove_existsb (f : A → bool) x l l' :
  list_remove x l = Ok l' → f x = false → existsb f l' = existsb f l.
Proof.
  revert l'. induction l as [|y l IH]; intros l'; simpl; [done|].
  case_decide as Hy.
  - intros [= ->] Hf. subst. by rewrite Hf.
  - intros H1 Hf. apply bind_Ok in H1 as (l'' & Hl'' & [= <-]).
    simpl. by rewrite (IH _ Hl'' Hf).
Qed.
End list_remove_facts.

(** ** Steps of the engine *)

Section engine_facts.
Import GameState.
Implicit Types (state s : GameState.t) (pl : Player.t) (g : Rng) (card : Card.t).

Lemma advance_turn_inv state steps s :
  advance_turn state steps = Ok s →
  s = with_current_index
        ((current_index state + steps * direction state)
           `mod` Z.of_nat (length (players state))) state.
Proof. unfold advance_turn. case_decide; [done|]. by intros [= <-]. Qed.

Lemma player_draws_Ok p count state g pl :
  players state !! p = Some pl →
  ∃ drawn d' g',
    Game.player_draws p count state g
    = Ok (with_deck d' (with_player p (Player.with_hand (Player.hand pl ++ drawn) pl) state), g')
    ∧ length drawn = (Z.to_nat count `min` supply (deck state))%nat
    ∧ drawn ++ deck_cards d' ≡ₚ deck_cards (deck state)
    ∧ (drawn = [] → d' = deck state)
    ∧ (Deck.discard_pile (deck state) ≠ [] →
       Deck.top_discard d' = Deck.top_discard (deck state)).
Proof.
  intros Hp. unfold Game.player_draws.
  apply player_at_Ok in Hp as ->. simpl.
  destruct (Player_draw_spec pl (deck state) count g)
    as (drawn & d' & g' & -> & ?). by exists drawn, d', g'.
Qed.

Lemma player_draws_inv p count state g s g' :
  Game.player_draws p count state g = Ok (s, g') →
  ∃ pl drawn d',
    players state !! p = Some pl
    ∧ s = with_deck d' (with_player p (Player.with_hand (Player.hand pl ++ drawn) pl) state)
    ∧ length drawn = (Z.to_nat count `min` supply (deck state))%nat
    ∧ drawn ++ deck_cards d' ≡ₚ deck_cards (deck state)
    ∧ (drawn = [] → d' = deck state)
    ∧ (Deck.discard_pile (deck state) ≠ [] →
       Deck.top_discard d' = Deck.top_discard (deck state)).
Proof.
  intros H. destruct (players state !! p) as [pl|] eqn:Hp.
  - destruct (player_draws_Ok p count state g pl Hp) as (drawn & d' & g1 & Heq & ?).
    rewrite Heq in H. injection H as <- <-. by exists pl, drawn, d'.
  - unfold Game.player_draws, player_at in H. by rewrite Hp in H.
Qed.

(** Moving cards from the deck to a hand keeps the cards of the game. *)
Lemma all_cards_draw state p pl drawn d' :
  players state !! p = Some pl →
  drawn ++ deck_cards d' ≡ₚ deck_cards (deck state) →
  all_cards (with_deck d' (with_player p (Player.with_hand (Player.hand pl ++ drawn) pl) state))
  ≡ₚ all_cards state.
Proof.
  intros Hp Hperm. unfold all_cards. simpl.
  destruct (hands_insert (players state) p pl
              (Player.with_hand (Player.hand pl ++ drawn) pl) Hp) as (others & -> & ->).
  simpl. rewrite <-Hperm. solve_Permutation.
Qed.

Lemma player_draws_cards p count state g s g' :
  Game.player_draws p count state g = Ok (s, g') → all_cards s ≡ₚ all_cards state.
Proof.
  intros (pl & drawn & d' & Hp & -> & _ & Hperm & _)%player_draws_inv.
  by apply all_cards_draw.
Qed.
End engine_facts.

Section play_facts.
Import GameState.
Implicit Types (state s : GameState.t) (pl : Player.t) (g : Rng) (card : Card.t).

Lemma place_card_Ok p card chosen_color state pl :
  players state !! p = Some pl → card ∈ Player.hand pl →
  ∃ h, list_remove card (Player.hand pl) = Ok h
    ∧ Game.place_card p card chosen_color state
      = Ok (let s1 := with_deck (Deck.discard (deck state) card)
                        (with_player p (Player.with_hand h pl) state) in
            if Rank.is_wild (Card.rank card) then with_active_color chosen_color s1
            else s1).
Proof.
  intros Hp Hin. destruct (list_remove_elem_of _ _ Hin) as [h Hh].
  exists h. split; [done|]. unfold Game.place_card.
  apply player_at_Ok in Hp as ->. simpl. by rewrite Hh.
Qed.

Lemma place_card_inv p card chosen_color state s1 :
  Game.place_card p card chosen_color state = Ok s1 →
  ∃ pl h, players state !! p = Some pl
    ∧ list_remove card (Player.hand pl) = Ok h
    ∧ s1 = (let s := with_deck (Deck.discard (deck state) card)
                        (with_player p (Player.with_hand h pl) state) in
            if Rank.is_wild (Card.rank card) then with_active_color chosen_color s
            else s).
Proof.
  unfold Game.place_card. intros H.
  apply bind_Ok in H as (pl & Hpl%player_at_Ok & H).
  apply bind_Ok in H as (h & Hh & [= <-]). by exists pl, h.
Qed.

Lemma place_card_cards p card chosen_color state s1 :
  Game.place_card p card chosen_color state = Ok s1 →
  all_cards s1 ≡ₚ all_cards state
  ∧ length (players s1) = length (players state)
  ∧ current_index s1 = current_index state
  ∧ direction s1 = direction state
  ∧ pending_draw s1 = pending_draw state
  ∧ active_color s1
    = (if Rank.is_wild (Card.rank card) then chosen_color else active_color state).
Proof.
  intros (pl & h & Hp & Hh%list_remove_Ok & ->)%place_card_inv.
  assert (all_cards (with_deck (Deck.discard (deck state) card)
                       (with_player p (Player.with_hand h pl) state))
          ≡ₚ all_cards state) as Hcards.
  { unfold all_cards, deck_cards. simpl.
    destruct (hands_insert (players state) p pl (Player.with_hand h pl) Hp)
      as (others & -> & ->).
    simpl. rewrite Hh. solve_Permutation. }
  destruct (Rank.is_wild (Card.rank card)); simpl;
    by rewrite ?length_insert.
Qed.

(** What the effect of a rank leaves alone. *)
Lemma apply_rank_frame p card state challenge_flag g s g' :
  Game.apply_rank p card state challenge_flag g = Ok (s, g') →
  all_cards s ≡ₚ all_cards state
  ∧ length (players s) = length (players state)
  ∧ active_color s = active_color state.
Proof.
  unfold Game.apply_rank. intros H.
  repeat case_decide; inv_Ok H;
    repeat match goal with
    | Hd : Game.player_draws _ _ _ _ = Ok _ |- _ =>
        apply player_draws_inv in Hd as (? & ? & ? & ? & -> & _ & ? & _)
    | Ha : advance_turn _ _ = Ok _ |- _ => apply advance_turn_inv in Ha as ->
    end; simpl; rewrite ?length_insert; split_and!; try done;
    by apply all_cards_draw.
Qed.

Lemma play_card_frame p card chosen_color state challenge_flag g s g' :
  Game._play_card p card chosen_color state challenge_flag g = Ok (s, g') →
  all_cards s ≡ₚ all_cards state
  ∧ length (players s) = length (players state)
  ∧ active_color s
    = (if Rank.is_wild (Card.rank card) then chosen_color else active_color state).
Proof.
  unfold Game._play_card. intros H.
  apply bind_Ok in H as (s1 & (Hc & Hl & _ & _ & _ & Hcol)%place_card_cards
                            & (Hc' & Hl' & Hcol')%apply_rank_frame).
  split_and!; congruence || by etrans.
Qed.
End play_facts.

(** ** Conservation of the cards *)

Section conservation.
Import GameState.
Implicit Types (state s : GameState.t) (pl : Player.t) (g : Rng) (card : Card.t).

Lemma draw_inv (d : Deck.t) g oc d' g' :
  Deck.draw d g = (oc, d', g') →
  match oc with
  | None => d' = d
  | Some c => c :: deck_cards d' ≡ₚ deck_cards d
  end.
Proof.
  intros H.
  destruct (draw_cases d g) as [(_ & _ & Heq)|(c & d1 & g1 & Heq & Hperm & _)];
    rewrite Heq in H; by simplify_eq.
Qed.

Lemma turn_cards state move g s g' over :
  Game.turn state move g = Ok (s, g', over) → all_cards s ≡ₚ all_cards state.
Proof.
  unfold Game.turn. intros H.
  apply bind_Ok in H as (p & Hp & H).
  apply bind_Ok in H as (current & Hcur%player_at_Ok & H).
  case_decide as Hinv.
  { inv_Ok H. apply advance_turn_inv in Ha0 as ->.
    by apply player_draws_cards in Ha. }
  case_decide as Hdraw.
  - apply bind_Ok in H as ([s1 g1] & H1 & H). inv_Ok H.
    case_bool_decide as Hpend.
    + inv_Ok H1. by apply player_draws_cards in Ha0.
    + destruct (Deck.draw (deck state) g) as [[drawn d] g2] eqn:Hd.
      apply draw_inv in Hd. destruct drawn as [drawn|]; simpl in H1.
      * assert (all_cards (with_player p
                   (Player.with_hand (Player.hand current ++ [drawn]) current)
                   (with_deck d state)) ≡ₚ all_cards state) as Hcards.
        { apply (all_cards_draw state p current [drawn] d); [done|].
          by simpl. }
        apply bind_Ok in H1 as (top & _ & H1).
        destruct (Card.matches drawn top _ && _).
        -- apply play_card_frame in H1 as (Hc & _). by rewrite Hc.
        -- inv_Ok H1. by apply advance_turn_inv in Ha0 as ->.
      * subst d. inv_Ok H1. apply advance_turn_inv in Ha0 as ->.
        by destruct state.
  - destruct (Move.card move) as [card|].
    + case_bool_decide; simpl in H.
      * apply bind_Ok in H as (top & _ & H).
        destruct (Card.matches card top (active_color state)); simpl in H.
        -- apply bind_Ok in H as ([s1 g1] & (Hc & _)%play_card_frame & H).
           by inv_Ok H.
        -- inv_Ok H. by apply advance_turn_inv in Ha as ->.
      * inv_Ok H. by apply advance_turn_inv in Ha as ->.
    + inv_Ok H. by apply advance_turn_inv in Ha as ->.
Qed.
End conservation.

Section setup_facts.
Import GameState.
Implicit Types (state s : GameState.t) (g : Rng).

Lemma hands_make_players player_count : hands (Game.make_players player_count) = [].
Proof.
  unfold Game.make_players, hands. rewrite bind_cons. simpl.
  induction (seqZ 1 (player_count - 1)) as [|i l IH]; [done|].
  by rewrite fmap_cons, bind_cons.
Qed.

Lemma deal_cards positions state g s g' :
  Game.deal positions state g = Ok (s, g') → all_cards s ≡ₚ all_cards state.
Proof.
  revert state g. induction positions as [|p positions IH]; intros state g; simpl.
  - by intros [= <- <-].
  - intros H. apply bind_Ok in H as ([s1 g1] & H1%player_draws_cards & H).
    by rewrite (IH _ _ H).
Qed.

Lemma start_discard_cards fuel (d : Deck.t) g d' g' :
  Deck.start_discard_non_wild fuel d g = Ok (d', g') → deck_cards d' ≡ₚ deck_cards d.
Proof.
  revert d g. induction fuel as [|fuel IH]; intros d g; simpl; [done|].
  destruct (Deck.draw d g) as [[[c|] d1] g1] eqn:Hd; [|done].
  apply draw_inv in Hd.
  assert (deck_cards (Deck.discard d1 c) ≡ₚ deck_cards d) as Hperm.
  { rewrite <-Hd. unfold deck_cards. simpl. solve_Permutation. }
  destruct (negb (Rank.is_wild (Card.rank c))).
  - by intros [= <- <-].
  - intros H%IH. by rewrite H.
Qed.

Lemma new_deck_cards g : deck_cards (Deck.new g).1 ≡ₚ Deck.build_cards.
Proof.
  unfold Deck.new, Deck._build.
  pose proof (shuffle_perm Deck.build_cards g) as Hp.
  destruct (shuffle Deck.build_cards g) as [cards g1].
  unfold deck_cards. simpl in *. by rewrite app_nil_r.
Qed.

Lemma setup_cards self fuel g state g' :
  Game.setup self fuel g = Ok (state, g') → all_cards state ≡ₚ Deck.build_cards.
Proof.
  unfold Game.setup. pose proof (new_deck_cards g) as Hnew.
  destruct (Deck.new g) as [d g1]. simpl in Hnew. intros H.
  apply bind_Ok in H as ([s1 g2] & Hdeal%deal_cards & H).
  apply bind_Ok in H as ([d2 g3] & Hstart%start_discard_cards & H).
  apply bind_Ok in H as (top & _ & H).
  apply bind_Ok in H as (top' & _ & H).
  apply bind_Ok in H as (s2 & Heff & [= <- <-]).
  assert (all_cards s2 ≡ₚ all_cards (with_deck d2 s1)) as ->.
  { unfold Game._apply_initial_effect in Heff.
    repeat case_decide; simplify_eq; try done.
    by apply advance_turn_inv in Heff as ->. }
  change (all_cards (with_deck d2 s1)) with (deck_cards d2 ++ hands (players s1)).
  rewrite Hstart.
  change (deck_cards (deck s1) ++ hands (players s1)) with (all_cards s1).
  rewrite Hdeal. unfold all_cards, GameState.new. cbn [deck players].
  by rewrite hands_make_players, app_nil_r.
Qed.

Lemma reachable_cards state g over :
  Game.reachable state g over → all_cards state ≡ₚ Deck.build_cards.
Proof.
  induction 1 as [self fuel g state g' Hsetup|state g move state' g' over _ IH Hturn].
  - by eapply setup_cards.
  - by rewrite (turn_cards _ _ _ _ _ _ Hturn).
Qed.

#[global] Instance count_face_perm color rank :
  Proper ((≡ₚ) ==> (=)) (count_face color rank).
Proof. intros l1 l2 Hl. unfold count_face. by rewrite Hl. Qed.

#[global] Instance standard_composition_perm :
  Proper ((≡ₚ) ==> iff) standard_composition.
Proof.
  intros l1 l2 Hl. unfold standard_composition.
  rewrite Hl. repeat (f_equiv; try (intros ?); try by rewrite Hl).
Qed.

Lemma build_cards_composition : standard_composition Deck.build_cards.
Proof.
  unfold standard_composition.
  repeat match goal with
  | |- _ ∧ _ => split
  | |- Forall _ _ => constructor
  end; vm_compute; reflexivity.
Qed.
End setup_facts.

(** C5.  In every state that the loop of [start] reaches, whatever the
    moves of the players and the tape of random numbers, the draw pile, the
    discard pile and the hands together hold the very cards that
    [Deck._build] created, each of them once: a standard deck of 108
    cards. *)
Theorem conservation (state : GameState.t) (g : Rng) (over : bool) :
  Game.reachable state g over →
  all_cards state ≡ₚ Deck.build_cards
  ∧ standard_composition (all_cards state).
Proof.
  intros Hreach%reachable_cards. split; [done|].
  rewrite Hreach. apply build_cards_composition.
Qed.

Lemma conservation_witness :
  ∃ state g over,
    (Game.setup (Game.new 2 true) 9 [3; 1; 4; 1; 5; 9; 2; 6]%nat
       ≫= λ '(s, g), Game.turn s Move.draw g) = Ok (state, g, over)
    ∧ all_cards state ≡ₚ Deck.build_cards
    ∧ standard_composition (all_cards state).
Proof.
  eexists _, _, _. split; [vm_compute; reflexivity|].
  eapply conservation.
  eapply (Game.reach_turn _ _ Move.draw).
  - apply (Game.reach_setup (Game.new 2 true) 9 [3; 1; 4; 1; 5; 9; 2; 6]%nat).
    vm_compute. reflexivity.
  - vm_compute. reflexivity.
Defined.

(** ** Playing a card *)

Section rank_facts.
Import GameState.
Implicit Types (state s : GameState.t) (pl : Player.t) (g : Rng) (card : Card.t).

Lemma play_card_unfold p card chosen_color state challenge_flag g pl :
  players state !! p = Some pl → card ∈ Player.hand pl →
  ∃ h s1,
    list_remove card (Player.hand pl) = Ok h
    ∧ Game.place_card p card chosen_color state = Ok s1
    ∧ s1 = (let s := with_deck (Deck.discard (deck state) card)
                        (with_player p (Player.with_hand h pl) state) in
            if Rank.is_wild (Card.rank card) then with_active_color chosen_color s
            else s)
    ∧ players s1 = <[p:=Player.with_hand h pl]> (players state)
    ∧ Game._play_card p card chosen_color state challenge_flag g
      = Game.apply_rank p card s1 challenge_flag g.
Proof.
  intros Hp Hin.
  destruct (place_card_Ok p card chosen_color state pl Hp Hin) as (h & Hh & Hplace).
  eexists h, _. split_and!; [done|exact Hplace|done| |].
  - by destruct (Rank.is_wild (Card.rank card)).
  - unfold Game._play_card. by rewrite Hplace.
Qed.

Lemma apply_rank_skip p card state challenge_flag g :
  Card.rank card = Rank.SKIP → players state ≠ [] →
  Game.apply_rank p card state challenge_flag g = Ok (stepped 2 state, g).
Proof.
  intros Hr Hne. unfold Game.apply_rank. rewrite Hr.
  case_decide; [|done]. by rewrite advance_turn_Ok.
Qed.

Lemma apply_rank_reverse p card state challenge_flag g :
  Card.rank card = Rank.REVERSE → players state ≠ [] →
  Game.apply_rank p card state challenge_flag g
  = Ok (stepped (if decide (length (players state) = 2%nat) then 2 else 1)
                (reverse state), g).
Proof.
  intros Hr Hne. unfold Game.apply_rank. rewrite Hr.
  case_decide; [done|]. case_decide; [|done].
  simpl. case_decide; by rewrite advance_turn_Ok.
Qed.

Lemma apply_rank_draw_two p card state challenge_flag g :
  Card.rank card = Rank.DRAW_TWO → players state ≠ [] →
  Game.apply_rank p card state challenge_flag g
  = Ok (stepped 1 (with_pending_draw (pending_draw state + 2) state), g).
Proof.
  intros Hr Hne. unfold Game.apply_rank. rewrite Hr.
  repeat (case_decide; [done|]). case_decide; [|done]. by rewrite advance_turn_Ok.
Qed.

(** Any rank but SKIP, REVERSE, DRAW_TWO and WILD_DRAW_FOUR. *)
Lemma apply_rank_plain p card state challenge_flag g :
  Card.rank card ∉ [Rank.SKIP; Rank.REVERSE; Rank.DRAW_TWO; Rank.WILD_DRAW_FOUR] →
  players state ≠ [] →
  Game.apply_rank p card state challenge_flag g = Ok (stepped 1 state, g).
Proof.
  intros Hr Hne. unfold Game.apply_rank.
  rewrite !not_elem_of_cons in Hr. destruct Hr as (? & ? & ? & ? & _).
  repeat (case_decide; [done|]).
  case_decide; [by rewrite advance_turn_Ok|].
  case_decide; [done|]. by rewrite advance_turn_Ok.
Qed.

Lemma next_player_Ok state :
  players state ≠ [] →
  ∃ o, next_player state = Ok o
    ∧ Z.of_nat o = (current_index state + direction state)
                     `mod` Z.of_nat (length (players state))
    ∧ (o < length (players state))%nat.
Proof.
  intros Hne. unfold next_player. case_decide as Hn.
  { destruct (players state); [done|simpl in Hn; lia]. }
  pose proof (Z.mod_pos_bound (current_index state + direction state)
                (Z.of_nat (length (players state)))) as Hb.
  unfold player_pos, py_index. case_decide; [|lia].
  eexists. split; [done|]. lia.
Qed.
End rank_facts.

Section wild_draw_four.
Import GameState.
Implicit Types (state s : GameState.t) (pl : Player.t) (g : Rng) (card : Card.t).

Lemma wild_draw_four_is_wild card :
  Card.rank card = Rank.WILD_DRAW_FOUR → Rank.is_wild (Card.rank card) = true.
Proof. intros ->. done. Qed.

(** The effect of WILD_DRAW_FOUR on a state [s1] in which the card has
    been placed: who draws, how much, and where the turn goes. *)
Lemma apply_rank_wild_draw_four p card s1 challenge_flag g player :
  Card.rank card = Rank.WILD_DRAW_FOUR →
  players s1 !! p = Some player →
  ∃ o opponent s g',
    next_player s1 = Ok o
    ∧ players s1 !! o = Some opponent
    ∧ Game.apply_rank p card s1 challenge_flag g = Ok (s, g')
    ∧ current_index s
      = (current_index s1 + 1 * direction s1) `mod` Z.of_nat (length (players s1))
    ∧ direction s = direction s1
    ∧ active_color s = active_color s1
    ∧ (let illegal := Game._player_had_active_color_before_wdf player s1 in
       if bool_decide (Player.class opponent = Player.AggressiveAI) || challenge_flag
       then
         pending_draw s = pending_draw s1
         ∧ ∃ drawn d',
             length drawn = ((if illegal then 4 else 6) `min` supply (deck s1))%nat
             ∧ drawn ++ deck_cards d' ≡ₚ deck_cards (deck s1)
             ∧ deck s = d'
             ∧ players s
               = (if illegal
                  then <[p:=Player.with_hand (Player.hand player ++ drawn) player]>
                  else <[o:=Player.with_hand (Player.hand opponent ++ drawn) opponent]>)
                   (players s1)
       else
         pending_draw s = pending_draw s1 + 4
         ∧ deck s = deck s1 ∧ players s = players s1).
Proof.
  intros Hr Hp.
  pose proof (players_nonempty _ _ _ Hp) as Hne.
  destruct (next_player_Ok s1 Hne) as (o & Ho & _ & Holt).
  destruct (lookup_lt_is_Some_2 _ _ Holt) as [opponent Hopp].
  exists o, opponent.
  assert (∀ k : result (GameState.t * Rng),
    (if bool_decide (Player.class opponent = Player.AggressiveAI) || challenge_flag
     then
       if Game._player_had_active_color_before_wdf player s1
       then Game.player_draws p 4 s1 g
              ≫= λ '(state, g'), advance_turn state 1 ≫= λ s, Ok (s, g')
       else Game.player_draws o 6 s1 g
              ≫= λ '(state, g'), advance_turn state 1 ≫= λ s, Ok (s, g')
     else advance_turn (with_pending_draw (pending_draw s1 + 4) s1) 1
            ≫= λ s, Ok (s, g)) = k →
    Game.apply_rank p card s1 challenge_flag g = k) as Hunfold.
  { intros k <-. unfold Game.apply_rank. rewrite Hr.
    repeat (case_decide; [done|]). case_decide; [|done].
    rewrite Ho. simpl.
    by rewrite (proj2 (player_at_Ok _ _ _) Hopp), (proj2 (player_at_Ok _ _ _) Hp). }
  destruct (bool_decide (Player.class opponent = Player.AggressiveAI) || challenge_flag).
  - destruct (Game._player_had_active_color_before_wdf player s1).
    + destruct (player_draws_Ok p 4 s1 g player Hp)
        as (drawn & d' & g' & Hdraw & Hl & Hperm & _).
      eexists (stepped 1 _), g'. split_and!; [done..| | | | |].
      * apply Hunfold. rewrite Hdraw. simpl.
        by rewrite advance_turn_Ok by (by apply insert_nonempty).
      * simpl. by rewrite length_insert.
      * done.
      * done.
      * split; [done|]. by exists drawn, d'.
    + destruct (player_draws_Ok o 6 s1 g opponent Hopp)
        as (drawn & d' & g' & Hdraw & Hl & Hperm & _).
      eexists (stepped 1 _), g'. split_and!; [done..| | | | |].
      * apply Hunfold. rewrite Hdraw. simpl.
        by rewrite advance_turn_Ok by (by apply insert_nonempty).
      * simpl. by rewrite length_insert.
      * done.
      * done.
      * split; [done|]. by exists drawn, d'.
  - eexists (stepped 1 _), g. split_and!; [done..| | | | |].
    + apply Hunfold. by rewrite advance_turn_Ok.
    + done.
    + done.
    + done.
    + done.
Qed.
End wild_draw_four.

(** ** Absorbing a pending draw *)

Section pending_draw.
Import GameState.
Implicit Types (state s : GameState.t) (g : Rng).

(** A DRAW move under a pending draw: the current player draws with the
    pending amount as count, the amount is reset, and [current_index] is
    what it was: this branch of the loop never calls [advance_turn]. *)
Lemma draw_of_pending state g p :
  current state = Ok p → pending_draw state > 0 →
  ∃ s1 g' pl,
    Game.player_draws p (pending_draw state) state g = Ok (s1, g')
    ∧ players s1 !! p = Some pl
    ∧ Game.turn state Move.draw g
      = Ok (with_pending_draw 0 s1, g', Game._check_win pl)
    ∧ current_index (with_pending_draw 0 s1) = current_index state
    ∧ direction (with_pending_draw 0 s1) = direction state.
Proof.
  intros Hp Hpend. destruct (current_player _ _ Hp) as [cur Hcur].
  pose proof Hcur as Hcur'. apply player_at_Ok in Hcur'.
  destruct (player_draws_Ok p (pending_draw state) state g cur Hcur')
    as (drawn & d' & g' & Hdraw & _).
  eexists _, g', _. split; [exact Hdraw|].
  assert (players (with_deck d' (with_player p
            (Player.with_hand (Player.hand cur ++ drawn) cur) state)) !! p
          = Some (Player.with_hand (Player.hand cur ++ drawn) cur)) as Hlook.
  { simpl. apply list_lookup_insert_eq. by eapply lookup_lt_Some. }
  split; [exact Hlook|]. split; [|done].
  unfold Game.turn. rewrite Hp. simpl. rewrite Hcur. simpl.
  rewrite bool_decide_eq_true_2 by done.
  rewrite Hdraw. simpl. unfold player_at. simpl in *. by rewrite Hlook.
Qed.
End pending_draw.

(** C1.  The run of the specification's scenario on the code.  The human
    plays RED DRAW_TWO on RED FIVE: two cards are pending and the turn
    passes to the automated player, who holds no card to stack and answers
    DRAW.  The two cards are drawn in one action and the pending amount is
    reset, but the turn does not pass back to the human: [current_index] is
    still 1 when the loop asks for the next move. *)
Theorem pending_draw_scenario :
  Game.turn Scenario.opening (Move.play Scenario.red_draw_two (Some Color.RED) false) []
  = Ok (Scenario.stacked, [], false)
  ∧ GameState.current_index Scenario.stacked = 1
  ∧ GameState.pending_draw Scenario.stacked = 2
  ∧ (automated ← GameState.player_at Scenario.stacked 1;
     AggressiveAI.choose_move automated Scenario.stacked) = Ok Move.draw
  ∧ ∃ s, Game.turn Scenario.stacked Move.draw [] = Ok (s, [], false)
      ∧ length ∘ Player.hand <$> GameState.players Scenario.stacked = [4; 4]%nat
      ∧ length ∘ Player.hand <$> GameState.players s = [4; 6]%nat
      ∧ GameState.pending_draw s = 0
      ∧ GameState.direction s = 1
      ∧ GameState.current_index s = 1.
Proof.
  split_and!; try (vm_compute; reflexivity).
  eexists. split_and!; vm_compute; reflexivity.
Qed.

(** ** The Wild Draw Four challenge *)

Section challenge.
Import GameState.
Implicit Types (state s : GameState.t) (pl : Player.t) (g : Rng) (card : Card.t).

(** The judgement is made after [_play_card] has set the active colour, so
    it asks for a card of the colour that the play has chosen. *)
Lemma wdf_judged_on_chosen_color p card chosen_color state pl :
  players state !! p = Some pl → card ∈ Player.hand pl →
  Card.rank card = Rank.WILD_DRAW_FOUR →
  ∃ s1 player,
    Game.place_card p card chosen_color state = Ok s1
    ∧ players s1 !! p = Some player
    ∧ active_color s1 = chosen_color
    ∧ Game._player_had_active_color_before_wdf player s1
      = Player.has_color pl chosen_color.
Proof.
  intros Hp Hin Hr.
  destruct (place_card_Ok p card chosen_color state pl Hp Hin) as (h & Hh & Hplace).
  rewrite (wild_draw_four_is_wild _ Hr) in Hplace.
  eexists _, (Player.with_hand h pl). split_and!; [exact Hplace| | |].
  - simpl. apply list_lookup_insert_eq. by eapply lookup_lt_Some.
  - done.
  - unfold Game._player_had_active_color_before_wdf, Player.has_color. simpl.
    apply (list_remove_existsb _ _ _ _ Hh).
    by rewrite (wild_draw_four_is_wild _ Hr).
Qed.
End challenge.

(** C2.  The code at two tables whose active colour is RED, the human
    playing a WILD_DRAW_FOUR that chooses BLUE and the automated player
    challenging.  Holding RED FIVE and no blue card, the human is judged to
    have played legally: the challenger draws six.  Holding BLUE FIVE and no
    red card, the human is judged to have played illegally and draws four.
    The judgement follows the colour chosen by the play, not the colour in
    effect before it. *)
Theorem challenge_scenario :
  let wdf := Move.play Scenario.wild_draw_four (Some Color.BLUE) false in
  (GameState.active_color Scenario.holding_red = Some Color.RED
   ∧ (human ← GameState.player_at Scenario.holding_red 0;
      Ok (Player.has_color human (Some Color.RED),
          Player.has_color human (Some Color.BLUE))) = Ok (true, false)
   ∧ ∃ s, Game.turn Scenario.holding_red wdf [] = Ok (s, [], false)
       ∧ length ∘ Player.hand <$> GameState.players Scenario.holding_red = [3; 3]%nat
       ∧ length ∘ Player.hand <$> GameState.players s = [2; 9]%nat)
  ∧ (GameState.active_color Scenario.holding_blue = Some Color.RED
     ∧ (human ← GameState.player_at Scenario.holding_blue 0;
        Ok (Player.has_color human (Some Color.RED),
            Player.has_color human (Some Color.BLUE))) = Ok (false, true)
     ∧ ∃ s, Game.turn Scenario.holding_blue wdf [] = Ok (s, [], false)
         ∧ length ∘ Player.hand <$> GameState.players Scenario.holding_blue = [3; 3]%nat
         ∧ length ∘ Player.hand <$> GameState.players s = [6; 3]%nat).
Proof.
  intros wdf. split; (split_and!; try (vm_compute; reflexivity));
    eexists; split_and!; vm_compute; reflexivity.
Qed.

(** C3, as stated, fails on a deck that is nearly spent.  At [Scenario.spent]
    the active colour is GREEN, the human holds green cards and plays a
    WILD_DRAW_FOUR that chooses GREEN again, and the automated player
    challenges: the play is illegal for either colour.  The deck can supply
    two cards only, RED ZERO and the GREEN ZERO that the reshuffle recycles,
    so the human draws two cards and not four. *)
Lemma wild_draw_four_spent_deck :
  GameState.active_color Scenario.spent = Some Color.GREEN
  ∧ (human ← GameState.player_at Scenario.spent 0;
     Ok (Player.has_color human (Some Color.GREEN))) = Ok true
  ∧ all_cards Scenario.spent ≡ₚ Deck.build_cards
  ∧ ∃ s, Game.turn Scenario.spent
           (Move.play Scenario.wild_draw_four (Some Color.GREEN) false) []
         = Ok (s, [], false)
      ∧ length ∘ Player.hand <$> GameState.players Scenario.spent = [57; 49]%nat
      ∧ length ∘ Player.hand <$> GameState.players s = [57 - 1 + 2; 49]%nat
      ∧ GameState.deck s = Deck.mk [] [Scenario.wild_draw_four]
      ∧ GameState.pending_draw s = 0.
Proof.
  split_and!; try (vm_compute; reflexivity).
  - apply (bool_decide_unpack _). vm_compute. reflexivity.
  - eexists. split_and!; vm_compute; reflexivity.
Qed.

(** C3, amended.  When a WILD_DRAW_FOUR is played from the hand, [s1] being
    the state in which the card has been placed: if the next player is
    automated or the move carries the challenge flag, the challenge is
    raised; then, if the engine judges the play illegal, the playing player
    draws four cards, or all that the deck can supply when they are fewer,
    and if it judges the play legal the challenger draws six, or all that
    the deck can supply; [pending_draw] is not touched.  Without a challenge
    [pending_draw] grows by 4 and nobody draws.  In every case the play
    succeeds and the turn advances by one step in the direction of play. *)
Theorem wild_draw_four_outcomes (p : nat) (card : Card.t)
    (chosen_color : option string) (state : GameState.t) (challenge_flag : bool)
    (g : Rng) (pl : Player.t) :
  GameState.players state !! p = Some pl →
  card ∈ Player.hand pl →
  Card.rank card = Rank.WILD_DRAW_FOUR →
  ∃ s1 player o opponent s g',
    Game.place_card p card chosen_color state = Ok s1
    ∧ GameState.players s1 !! p = Some player
    ∧ GameState.next_player s1 = Ok o
    ∧ GameState.players s1 !! o = Some opponent
    ∧ Game._play_card p card chosen_color state challenge_flag g = Ok (s, g')
    ∧ GameState.current_index s
      = (GameState.current_index state + 1 * GameState.direction state)
          `mod` Z.of_nat (length (GameState.players state))
    ∧ GameState.direction s = GameState.direction state
    ∧ (let illegal := Game._player_had_active_color_before_wdf player s1 in
       if bool_decide (Player.class opponent = Player.AggressiveAI) || challenge_flag
       then
         GameState.pending_draw s = GameState.pending_draw state
         ∧ ∃ drawn d',
             length drawn
             = ((if illegal then 4 else 6) `min` supply (GameState.deck s1))%nat
             ∧ drawn ++ deck_cards d' ≡ₚ deck_cards (GameState.deck s1)
             ∧ GameState.deck s = d'
             ∧ GameState.players s
               = (if illegal
                  then <[p:=Player.with_hand (Player.hand player ++ drawn) player]>
                  else <[o:=Player.with_hand (Player.hand opponent ++ drawn) opponent]>)
                   (GameState.players s1)
       else
         GameState.pending_draw s = GameState.pending_draw state + 4
         ∧ GameState.deck s = GameState.deck s1
         ∧ GameState.players s = GameState.players s1).
Proof.
  intros Hp Hin Hr.
  destruct (play_card_unfold p card chosen_color state challenge_flag g pl Hp Hin)
    as (h & s1 & Hh & Hplace & _ & Hps & Hplay).
  destruct (place_card_cards _ _ _ _ _ Hplace) as (_ & Hlen & Hidx & Hdir & Hpend & _).
  assert (GameState.players s1 !! p = Some (Player.with_hand h pl)) as Hp1.
  { rewrite Hps. apply list_lookup_insert_eq. by eapply lookup_lt_Some. }
  destruct (apply_rank_wild_draw_four p card s1 challenge_flag g _ Hr Hp1)
    as (o & opponent & s & g' & Ho & Hopp & Happly & Hi & Hd & _ & Hout).
  exists s1, (Player.with_hand h pl), o, opponent, s, g'.
  split_and!; try done.
  - by rewrite Hplay.
  - by rewrite Hi, Hidx, Hdir, Hlen.
  - by rewrite Hd.
  - by rewrite <-Hpend.
Qed.

Lemma wild_draw_four_outcomes_witness :
  ∃ s1 player o opponent s g',
    Game.place_card 0 Scenario.wild_draw_four (Some Color.BLUE) Scenario.holding_blue
    = Ok s1
    ∧ GameState.players s1 !! 0%nat = Some player
    ∧ GameState.next_player s1 = Ok o
    ∧ GameState.players s1 !! o = Some opponent
    ∧ Game._play_card 0 Scenario.wild_draw_four (Some Color.BLUE)
        Scenario.holding_blue false [] = Ok (s, g')
    ∧ GameState.current_index s = (0 + 1 * 1) `mod` 2
    ∧ GameState.direction s = 1
    ∧ (let illegal := Game._player_had_active_color_before_wdf player s1 in
       if bool_decide (Player.class opponent = Player.AggressiveAI) || false
       then
         GameState.pending_draw s = 0
         ∧ ∃ drawn d',
             length drawn
             = ((if illegal then 4 else 6) `min` supply (GameState.deck s1))%nat
             ∧ drawn ++ deck_cards d' ≡ₚ deck_cards (GameState.deck s1)
             ∧ GameState.deck s = d'
             ∧ GameState.players s
               = (if illegal
                  then <[0%nat:=Player.with_hand (Player.hand player ++ drawn) player]>
                  else <[o:=Player.with_hand (Player.hand opponent ++ drawn) opponent]>)
                   (GameState.players s1)
       else
         GameState.pending_draw s = 0 + 4
         ∧ GameState.deck s = GameState.deck s1
         ∧ GameState.players s = GameState.players s1).
Proof.
  apply (wild_draw_four_outcomes 0 Scenario.wild_draw_four (Some Color.BLUE)
           Scenario.holding_blue false []
           (Player.mk Player.HumanPlayer "You" (Scenario.pick [80; 101; 57]%nat))).
  - reflexivity.
  - apply (bool_decide_unpack _). vm_compute. reflexivity.
  - reflexivity.
Defined.

(** ** Effects of the ranks on the turn *)

Section turn_order.
Import GameState.
Implicit Types (state s : GameState.t) (pl : Player.t) (g : Rng) (card : Card.t).

Lemma placed_players_nonempty p card chosen_color state s1 :
  Game.place_card p card chosen_color state = Ok s1 → players s1 ≠ [].
Proof.
  intros (pl & h & Hp & _ & ->)%place_card_inv.
  destruct (Rank.is_wild (Card.rank card)); simpl;
    apply insert_nonempty; by eapply players_nonempty.
Qed.

(** [_play_card] succeeds on a card of the hand. *)
Lemma play_card_total p card chosen_color state challenge_flag g pl :
  players state !! p = Some pl → card ∈ Player.hand pl →
  ∃ s g', Game._play_card p card chosen_color state challenge_flag g = Ok (s, g').
Proof.
  intros Hp Hin.
  destruct (play_card_unfold p card chosen_color state challenge_flag g pl Hp Hin)
    as (h & s1 & _ & Hplace & _ & Hps & ->).
  pose proof (placed_players_nonempty _ _ _ _ _ Hplace) as Hne.
  destruct (decide (Card.rank card = Rank.SKIP)) as [Hr|Hskip].
  { rewrite apply_rank_skip by done. eauto. }
  destruct (decide (Card.rank card = Rank.REVERSE)) as [Hr|Hrev].
  { rewrite apply_rank_reverse by done. eauto. }
  destruct (decide (Card.rank card = Rank.DRAW_TWO)) as [Hr|Htwo].
  { rewrite apply_rank_draw_two by done. eauto. }
  destruct (decide (Card.rank card = Rank.WILD_DRAW_FOUR)) as [Hr|Hfour].
  { assert (players s1 !! p = Some (Player.with_hand h pl)) as Hp1.
    { rewrite Hps. apply list_lookup_insert_eq. by eapply lookup_lt_Some. }
    destruct (apply_rank_wild_draw_four p card s1 challenge_flag g _ Hr Hp1)
      as (o & opponent & s & g' & _ & _ & -> & _). eauto. }
  rewrite apply_rank_plain; [eauto| |done].
  rewrite !not_elem_of_cons. split_and!; try done. apply not_elem_of_nil.
Qed.
End turn_order.

(** C8.  From one state, a REVERSE and a SKIP played from the same hand.
    SKIP keeps the direction and advances two steps.  REVERSE flips the
    direction; with exactly two players it then advances two steps and
    [current_index] ends where SKIP puts it, whatever the direction was;
    with three players or more it advances one step. *)
Theorem reverse_and_skip (p : nat) (reverse_card skip_card : Card.t)
    (c1 c2 : option string) (state : GameState.t) (f1 f2 : bool) (g : Rng)
    (pl : Player.t) :
  GameState.players state !! p = Some pl →
  reverse_card ∈ Player.hand pl → skip_card ∈ Player.hand pl →
  Card.rank reverse_card = Rank.REVERSE → Card.rank skip_card = Rank.SKIP →
  let n := Z.of_nat (length (GameState.players state)) in
  let i := GameState.current_index state in
  let d := GameState.direction state in
  ∃ sr ss,
    Game._play_card p reverse_card c1 state f1 g = Ok (sr, g)
    ∧ Game._play_card p skip_card c2 state f2 g = Ok (ss, g)
    ∧ GameState.direction ss = d
    ∧ GameState.current_index ss = (i + 2 * d) `mod` n
    ∧ GameState.direction sr = d * -1
    ∧ (n = 2 →
       GameState.current_index sr = (i + 2 * (d * -1)) `mod` n
       ∧ GameState.current_index sr = GameState.current_index ss)
    ∧ (3 ≤ n → GameState.current_index sr = (i + 1 * (d * -1)) `mod` n).
Proof.
  intros Hp Hrin Hsin Hrr Hsr n i d.
  destruct (play_card_unfold p reverse_card c1 state f1 g pl Hp Hrin)
    as (hr & r1 & _ & Hrplace & _ & _ & ->).
  destruct (play_card_unfold p skip_card c2 state f2 g pl Hp Hsin)
    as (hs & s1 & _ & Hsplace & _ & _ & ->).
  pose proof (placed_players_nonempty _ _ _ _ _ Hrplace) as Hrne.
  pose proof (placed_players_nonempty _ _ _ _ _ Hsplace) as Hsne.
  destruct (place_card_cards _ _ _ _ _ Hrplace) as (_ & Hrl & Hri & Hrd & _).
  destruct (place_card_cards _ _ _ _ _ Hsplace) as (_ & Hsl & Hsi & Hsd & _).
  rewrite apply_rank_reverse, apply_rank_skip by done.
  eexists _, _. split_and!; [done|done|..]; simpl.
  - done.
  - by rewrite Hsl, Hsi, Hsd.
  - by rewrite Hrd.
  - intros Hn. rewrite Hrl, Hri, Hrd, Hsl, Hsi, Hsd.
    rewrite decide_True by (unfold n in Hn; lia).
    split; [done|]. fold n i d. rewrite Hn.
    replace (i + 2 * (d * -1)) with (i + (- d) * 2) by lia.
    replace (i + 2 * d) with (i + d * 2) by lia.
    by rewrite !Z_mod_plus_full.
  - intros Hn. rewrite Hrl, Hri, Hrd.
    rewrite decide_False by (unfold n in Hn; lia). done.
Qed.

Lemma reverse_and_skip_witness :
  (∃ sr ss,
     Game._play_card 0 Scenario.red_reverse None Scenario.two_actions false []
     = Ok (sr, [])
     ∧ Game._play_card 0 Scenario.red_skip None Scenario.two_actions false []
       = Ok (ss, [])
     ∧ GameState.direction Scenario.two_actions = 1
     ∧ GameState.direction sr = -1
     ∧ GameState.direction ss = 1
     ∧ GameState.current_index sr = 0
     ∧ GameState.current_index ss = 0)
  ∧ (∃ sr ss,
     Game._play_card 0 Scenario.red_reverse None Scenario.three_players false []
     = Ok (sr, [])
     ∧ Game._play_card 0 Scenario.red_skip None Scenario.three_players false []
       = Ok (ss, [])
     ∧ GameState.direction sr = -1
     ∧ GameState.direction ss = 1
     ∧ GameState.current_index sr = 2
     ∧ GameState.current_index ss = 2).
Proof.
  split.
  - destruct (reverse_and_skip 0 Scenario.red_reverse Scenario.red_skip None None
                Scenario.two_actions false false []
                (Player.mk Player.HumanPlayer "You" (Scenario.pick [10; 11; 7]%nat)))
      as (sr & ss & Hr & Hs & Hds & His & Hdr & Htwo & _);
      [reflexivity
      |apply (bool_decide_unpack _); vm_compute; reflexivity
      |apply (bool_decide_unpack _); vm_compute; reflexivity
      |reflexivity|reflexivity|].
    destruct Htwo as [Hir Heq]; [reflexivity|].
    exists sr, ss. split_and!; first [done|by rewrite Heq, His].
  - destruct (reverse_and_skip 0 Scenario.red_reverse Scenario.red_skip None None
                Scenario.three_players false false []
                (Player.mk Player.HumanPlayer "You" (Scenario.pick [10; 11; 7]%nat)))
      as (sr & ss & Hr & Hs & Hds & His & Hdr & _ & Hthree);
      [reflexivity
      |apply (bool_decide_unpack _); vm_compute; reflexivity
      |apply (bool_decide_unpack _); vm_compute; reflexivity
      |reflexivity|reflexivity|].
    exists sr, ss. split_and!; first [done|by rewrite Hthree].
Defined.

(** ** PLAY moves *)

Section play_moves.
Import GameState.
Implicit Types (state s : GameState.t) (pl : Player.t) (g : Rng) (card : Card.t).

(** The colour that [start] hands to [_play_card] for a PLAY move. *)
Lemma turn_play state card chosen_color challenge g p cur top s g' pl' :
  current state = Ok p → players state !! p = Some cur →
  card ∈ Player.hand cur →
  Deck.top_discard (deck state) = Ok top →
  Card.matches card top (active_color state) = true →
  Game._play_card p card
    (if Rank.is_wild (Card.rank card) then chosen_color else active_color state)
    state challenge g = Ok (s, g') →
  players s !! p = Some pl' →
  Game.turn state (Move.play card chosen_color challenge) g
  = Ok (s, g', Game._check_win pl').
Proof.
  intros Hp Hcur Hin Htop Hm Hplay Hpl'.
  unfold Game.turn. rewrite Hp. simpl.
  rewrite (proj2 (player_at_Ok _ _ _) Hcur). simpl.
  rewrite bool_decide_eq_true_2 by done. simpl.
  rewrite Htop. simpl. rewrite Hm. simpl. rewrite Hplay. simpl.
  by rewrite (proj2 (player_at_Ok _ _ _) Hpl').
Qed.

(** A PLAY move that names a card outside the hand forfeits the turn. *)
Lemma turn_not_in_hand state card chosen_color challenge g p cur :
  current state = Ok p → players state !! p = Some cur →
  card ∉ Player.hand cur →
  Game.turn state (Move.play card chosen_color challenge) g
  = Ok (stepped 1 state, g, false).
Proof.
  intros Hp Hcur Hin.
  unfold Game.turn. rewrite Hp. simpl.
  rewrite (proj2 (player_at_Ok _ _ _) Hcur). simpl.
  rewrite bool_decide_eq_false_2 by done. simpl.
  by rewrite advance_turn_Ok by (by eapply players_nonempty).
Qed.

(** So does one whose card does not match. *)
Lemma turn_no_match state card chosen_color challenge g p cur top :
  current state = Ok p → players state !! p = Some cur →
  card ∈ Player.hand cur →
  Deck.top_discard (deck state) = Ok top →
  Card.matches card top (active_color state) = false →
  Game.turn state (Move.play card chosen_color challenge) g
  = Ok (stepped 1 state, g, false).
Proof.
  intros Hp Hcur Hin Htop Hm.
  unfold Game.turn. rewrite Hp. simpl.
  rewrite (proj2 (player_at_Ok _ _ _) Hcur). simpl.
  rewrite bool_decide_eq_true_2 by done. simpl.
  rewrite Htop. simpl. rewrite Hm. simpl.
  by rewrite advance_turn_Ok by (by eapply players_nonempty).
Qed.

Lemma play_card_keeps_player p card chosen_color state challenge_flag g s g' :
  Game._play_card p card chosen_color state challenge_flag g = Ok (s, g') →
  (p < length (players state))%nat → ∃ pl', players s !! p = Some pl'.
Proof.
  intros (_ & Hl & _)%play_card_frame Hlt.
  apply lookup_lt_is_Some_2. by rewrite Hl.
Qed.
End play_moves.

(** C10.  [_play_card] on a card of the hand succeeds, and afterwards the
    active colour is the chosen colour when the rank of the card is wild and
    is what it was before otherwise, the colour of the card being written
    nowhere.  For a PLAY move the loop of [start] hands the colour of the
    move to [_play_card], so that after the turn the active colour is the
    colour of the move when a wild card of the hand was named and is
    unchanged in every other case, forfeits included. *)
Theorem active_color_after_play (p : nat) (card : Card.t)
    (chosen_color : option string) (state : GameState.t) (challenge : bool)
    (g : Rng) (cur : Player.t) :
  GameState.players state !! p = Some cur →
  (card ∈ Player.hand cur →
   ∃ s g',
     Game._play_card p card chosen_color state challenge g = Ok (s, g')
     ∧ GameState.active_color s
       = if Rank.is_wild (Card.rank card) then chosen_color
         else GameState.active_color state)
  ∧ (GameState.current state = Ok p →
     Deck.discard_pile (GameState.deck state) ≠ [] →
     ∃ s g' over,
       Game.turn state (Move.play card chosen_color challenge) g = Ok (s, g', over)
       ∧ GameState.active_color s
         = if Rank.is_wild (Card.rank card) && bool_decide (card ∈ Player.hand cur)
           then chosen_color
           else GameState.active_color state).
Proof.
  intros Hcur. split.
  - intros Hin.
    destruct (play_card_total p card chosen_color state challenge g cur Hcur Hin)
      as (s & g' & Hplay).
    exists s, g'. split; [done|].
    by apply play_card_frame in Hplay as (_ & _ & ->).
  - intros Hp Hdis.
    destruct (Deck.discard_pile (GameState.deck state)) as [|top rest] eqn:Hpile; [done|].
    assert (Deck.top_discard (GameState.deck state) = Ok top) as Htop.
    { unfold Deck.top_discard. by rewrite Hpile. }
    destruct (decide (card ∈ Player.hand cur)) as [Hin|Hout].
    + rewrite bool_decide_eq_true_2, andb_true_r by done.
      destruct (Card.matches card top (GameState.active_color state)) eqn:Hm.
      * destruct (play_card_total p card
                    (if Rank.is_wild (Card.rank card) then chosen_color
                     else GameState.active_color state)
                    state challenge g cur Hcur Hin) as (s & g' & Hplay).
        destruct (play_card_keeps_player _ _ _ _ _ _ _ _ Hplay) as [pl' Hpl'];
          [by eapply lookup_lt_Some|].
        exists s, g', (Game._check_win pl'). split.
        -- by eapply turn_play.
        -- apply play_card_frame in Hplay as (_ & _ & ->).
           by destruct (Rank.is_wild (Card.rank card)).
      * exists (stepped 1 state), g, false. split.
        -- by eapply turn_no_match.
        -- unfold Card.matches in Hm.
           by destruct (Rank.is_wild (Card.rank card)).
    + rewrite bool_decide_eq_false_2, andb_false_r by done.
      exists (stepped 1 state), g, false. split; [|done].
      by eapply turn_not_in_hand.
Qed.

Lemma active_color_after_play_witness :
  (∃ s g',
     Game._play_card 0 Scenario.red_seven (Some Color.BLUE) Scenario.two_actions
       false [] = Ok (s, g')
     ∧ GameState.active_color s = Some Color.RED)
  ∧ (∃ s g' over,
       Game.turn Scenario.holding_red
         (Move.play Scenario.wild_draw_four (Some Color.BLUE) false) []
       = Ok (s, g', over)
       ∧ GameState.active_color Scenario.holding_red = Some Color.RED
       ∧ GameState.active_color s = Some Color.BLUE).
Proof.
  split.
  - destruct (active_color_after_play 0 Scenario.red_seven (Some Color.BLUE)
                Scenario.two_actions false []
                (Player.mk Player.HumanPlayer "You" (Scenario.pick [10; 11; 7]%nat))
                eq_refl) as [Hplay _].
    apply Hplay. apply (bool_decide_unpack _). vm_compute. reflexivity.
  - destruct (active_color_after_play 0 Scenario.wild_draw_four (Some Color.BLUE)
                Scenario.holding_red false []
                (Player.mk Player.HumanPlayer "You" (Scenario.pick [5; 101; 57]%nat))
                eq_refl) as [_ Hturn].
    destruct Hturn as (s & g' & over & Hturn & Hcol); [reflexivity|done|].
    exists s, g', over. split_and!; done.
Defined.

(** ** Stacking *)

Section stacking.
Import GameState.
Implicit Types (state s : GameState.t) (pl : Player.t) (g : Rng) (card : Card.t).

(** A card that is neither DRAW_TWO nor WILD_DRAW_FOUR leaves the pending
    amount alone and ends on top of the discard pile. *)
Lemma play_card_plain p card chosen_color state challenge_flag g pl :
  players state !! p = Some pl → card ∈ Player.hand pl →
  Card.rank card ∉ [Rank.DRAW_TWO; Rank.WILD_DRAW_FOUR] →
  ∃ s,
    Game._play_card p card chosen_color state challenge_flag g = Ok (s, g)
    ∧ pending_draw s = pending_draw state
    ∧ Deck.top_discard (deck s) = Ok card
    ∧ Deck.draw_pile (deck s) = Deck.draw_pile (deck state).
Proof.
  intros Hp Hin Hr. rewrite !not_elem_of_cons in Hr. destruct Hr as (Htwo & Hfour & _).
  destruct (play_card_unfold p card chosen_color state challenge_flag g pl Hp Hin)
    as (h & s1 & _ & Hplace & Hs1 & _ & ->).
  pose proof (placed_players_nonempty _ _ _ _ _ Hplace) as Hne.
  assert (pending_draw s1 = pending_draw state
          ∧ Deck.top_discard (deck s1) = Ok card
          ∧ Deck.draw_pile (deck s1) = Deck.draw_pile (deck state)) as (Hpend & Htop & Hdraw).
  { subst s1. by destruct (Rank.is_wild (Card.rank card)). }
  destruct (decide (Card.rank card = Rank.SKIP)) as [Hr|Hskip].
  { rewrite apply_rank_skip by done. by eexists. }
  destruct (decide (Card.rank card = Rank.REVERSE)) as [Hr|Hrev].
  { rewrite apply_rank_reverse by done. by eexists. }
  rewrite apply_rank_plain; [by eexists| |done].
  rewrite !not_elem_of_cons. split_and!; try done. apply not_elem_of_nil.
Qed.

(** Under a pending draw the automated player answers with the first
    DRAW_TWO or WILD_DRAW_FOUR of its hand, or with DRAW. *)
Lemma automated_stacks_or_draws (self : Player.t) state move :
  pending_draw state > 0 →
  AggressiveAI.choose_move self state = Ok move →
  move = Move.draw
  ∨ ∃ stack chosen_color,
      move = Move.play stack chosen_color true
      ∧ stack ∈ Player.hand self
      ∧ Card.rank stack ∈ [Rank.DRAW_TWO; Rank.WILD_DRAW_FOUR].
Proof.
  intros Hpend. unfold AggressiveAI.choose_move. intros H.
  apply bind_Ok in H as (top & _ & H).
  rewrite bool_decide_eq_true_2 in H by done.
  destruct (AggressiveAI._best_stack_card self) as [stack|] eqn:Hs.
  - right. injection H as <-. eexists stack, _. split; [done|].
    unfold AggressiveAI._best_stack_card in Hs.
    apply find_some in Hs as [Hin Hrank].
    split; [by apply list_elem_of_In|]. by apply bool_decide_eq_true in Hrank.
  - left. by injection H as <-.
Qed.
End stacking.

(** C9.  Under a pending draw, a PLAY move that names a card of the hand of
    the current player which matches the table and is neither a DRAW_TWO
    nor a WILD_DRAW_FOUR is not rejected: the turn is the application of
    [_play_card], the card ends on top of the discard pile, nobody draws
    and [pending_draw] is what it was.  The stacking rule lives in the
    decision procedure: for that same card the human player's
    [choose_move] returns the INVALID move. *)
Theorem play_under_pending_draw (state : GameState.t) (card top : Card.t)
    (chosen_color : option string) (challenge : bool) (g : Rng) (p : nat)
    (cur : Player.t) :
  GameState.current state = Ok p →
  GameState.players state !! p = Some cur →
  card ∈ Player.hand cur →
  Deck.top_discard (GameState.deck state) = Ok top →
  Card.matches card top (GameState.active_color state) = true →
  GameState.pending_draw state > 0 →
  Card.rank card ∉ [Rank.DRAW_TWO; Rank.WILD_DRAW_FOUR] →
  (∃ s over,
     Game.turn state (Move.play card chosen_color challenge) g = Ok (s, g, over)
     ∧ Game._play_card p card
         (if Rank.is_wild (Card.rank card) then chosen_color
          else GameState.active_color state)
         state challenge g = Ok (s, g)
     ∧ GameState.pending_draw s = GameState.pending_draw state
     ∧ Deck.top_discard (GameState.deck s) = Ok card
     ∧ Deck.draw_pile (GameState.deck s) = Deck.draw_pile (GameState.deck state))
  ∧ (∀ (choice : Z) (asked : string),
       1 ≤ choice →
       Player.hand cur !! Z.to_nat (choice - 1) = Some card →
       HumanPlayer.choose_move cur state choice asked = Ok Move.invalid).
Proof.
  intros Hp Hcur Hin Htop Hm Hpend Hr. split.
  - destruct (play_card_plain p card
                (if Rank.is_wild (Card.rank card) then chosen_color
                 else GameState.active_color state)
                state challenge g cur Hcur Hin Hr) as (s & Hplay & Hpd & Ht & Hdp).
    destruct (play_card_keeps_player _ _ _ _ _ _ _ _ Hplay) as [pl' Hpl'];
      [by eapply lookup_lt_Some|].
    exists s, (Game._check_win pl'). split_and!; try done.
    by eapply turn_play.
  - intros choice asked Hchoice Hlook.
    unfold HumanPlayer.choose_move. rewrite Htop. simpl.
    rewrite decide_False by lia.
    pose proof (lookup_lt_Some _ _ _ Hlook) as Hlt.
    unfold py_index. rewrite decide_True by lia. simpl.
    rewrite Hlook, Hm. simpl.
    rewrite bool_decide_eq_true_2 by done.
    by rewrite bool_decide_eq_false_2 by done.
Qed.

Lemma play_under_pending_draw_witness :
  GameState.pending_draw Scenario.under_pending = 4
  ∧ (∃ s over,
       Game.turn Scenario.under_pending
         (Move.play Scenario.red_seven (Some Color.RED) false) [] = Ok (s, [], over)
       ∧ Game._play_card 0 Scenario.red_seven (Some Color.RED)
           Scenario.under_pending false [] = Ok (s, [])
       ∧ GameState.pending_draw s = 4
       ∧ Deck.top_discard (GameState.deck s) = Ok Scenario.red_seven
       ∧ Deck.draw_pile (GameState.deck s)
         = Deck.draw_pile (GameState.deck Scenario.under_pending))
  ∧ (human ← GameState.player_at Scenario.under_pending 0;
     HumanPlayer.choose_move human Scenario.under_pending 3 Color.RED)
    = Ok Move.invalid.
Proof.
  destruct (play_under_pending_draw Scenario.under_pending Scenario.red_seven
              (Card.mk 5 Color.RED Rank.FIVE) (Some Color.RED) false [] 0
              (Player.mk Player.HumanPlayer "You" (Scenario.pick [10; 11; 7]%nat)))
    as [Hengine Hhuman].
  - reflexivity.
  - reflexivity.
  - apply (bool_decide_unpack _). vm_compute. reflexivity.
  - reflexivity.
  - reflexivity.
  - reflexivity.
  - apply (bool_decide_unpack _). vm_compute. reflexivity.
  - split_and!; [reflexivity|exact Hengine|].
    apply (Hhuman 3 Color.RED); [lia|reflexivity].
Defined.

(** * Further properties of the code *)

(** ** The colour chosen for a wild card *)

Lemma most_held_spec (count : string → nat) :
  most_held count ∈ Color.STANDARD
  ∧ (∀ c, c ∈ Color.STANDARD → (count c ≤ count (most_held count))%nat)
  ∧ (∀ (i j : nat) c,
       Color.STANDARD !! i = Some c →
       Color.STANDARD !! j = Some (most_held count) →
       (i < j)%nat → (count c < count (most_held count))%nat).
Proof.
  unfold most_held, Color.STANDARD. simpl.
  destruct (count Color.RED <? count Color.YELLOW)%nat eqn:H1; simpl;
    [destruct (count Color.YELLOW <? count Color.GREEN)%nat eqn:H2
    |destruct (count Color.RED <? count Color.GREEN)%nat eqn:H2]; simpl;
    [destruct (count Color.GREEN <? count Color.BLUE)%nat eqn:H3
    |destruct (count Color.YELLOW <? count Color.BLUE)%nat eqn:H3
    |destruct (count Color.GREEN <? count Color.BLUE)%nat eqn:H3
    |destruct (count Color.RED <? count Color.BLUE)%nat eqn:H3]; simpl;
    repeat match goal with
    | H : (_ <? _)%nat = true |- _ => apply Nat.ltb_lt in H
    | H : (_ <? _)%nat = false |- _ => apply Nat.ltb_ge in H
    end;
    (split_and!;
     [ rewrite !elem_of_cons; tauto
     | intros c Hc; rewrite !elem_of_cons, elem_of_nil in Hc;
       destruct Hc as [->|[->|[->|[->|[]]]]]; lia
     | intros [|[|[|[|i]]]] [|[|[|[|j]]]] c Hi Hj Hlt;
       simpl in Hi, Hj; simplify_eq; lia ]).
Qed.

(** [Game._choose_color_auto] and [AggressiveAI._best_color_choice] return
    one of the four standard colours, of which the hand holds no fewer cards
    than of any other standard colour; among the colours held equally often
    the first of RED, YELLOW, GREEN, BLUE wins: every colour listed before
    the result is held strictly less often. *)
Theorem most_held_first_maximum (count : string → nat) :
  most_held count ∈ Color.STANDARD
  ∧ (∀ c, c ∈ Color.STANDARD → (count c ≤ count (most_held count))%nat)
  ∧ (∀ (i j : nat) c,
       Color.STANDARD !! i = Some c →
       Color.STANDARD !! j = Some (most_held count) →
       (i < j)%nat → (count c < count (most_held count))%nat).
Proof. apply most_held_spec. Qed.

(** ** The loop never raises *)

Section safety.
Import GameState.
Implicit Types (state s : GameState.t) (pl : Player.t) (g : Rng) (card : Card.t).

Lemma top_discard_nonempty (d : Deck.t) :
  Deck.discard_pile d ≠ [] ↔ ∃ c, Deck.top_discard d = Ok c.
Proof.
  unfold Deck.top_discard. destruct (Deck.discard_pile d); split; try done.
  - by intros [? ?].
  - intros _. by eexists.
Qed.

Lemma wf_index state (k : Z) :
  (1 ≤ length (players state))%nat →
  0 ≤ k `mod` Z.of_nat (length (players state)) < Z.of_nat (length (players state)).
Proof. intros Hn. apply Z.mod_pos_bound. lia. Qed.

Lemma wf_stepped state steps : well_formed state → well_formed (stepped steps state).
Proof.
  intros (Hn & Hi & Hd & Hp & Hdis). unfold well_formed, stepped. simpl.
  split_and!; try done; try lia. all: by apply wf_index.
Qed.

Lemma wf_advance_turn state steps s :
  well_formed state → advance_turn state steps = Ok s → well_formed s.
Proof. intros Hwf ->%advance_turn_inv. by apply wf_stepped. Qed.

Lemma wf_player_draws p count state g s g' :
  well_formed state → Game.player_draws p count state g = Ok (s, g') → well_formed s.
Proof.
  intros (Hn & Hi & Hd & Hp & Hdis)
    (pl & drawn & d' & Hpl & -> & _ & _ & _ & Htop)%player_draws_inv.
  unfold well_formed. simpl. rewrite length_insert. split_and!; try done; try lia.
  apply top_discard_nonempty. rewrite (Htop Hdis). by apply top_discard_nonempty.
Qed.

Lemma wf_reverse state : well_formed state → well_formed (reverse state).
Proof.
  intros (Hn & Hi & Hd & Hp & Hdis). unfold well_formed, reverse. simpl.
  split_and!; try done; lia.
Qed.

Lemma wf_pending state (k : Z) :
  well_formed state → 0 ≤ k → well_formed (with_pending_draw k state).
Proof.
  intros (Hn & Hi & Hd & Hp & Hdis) Hk. unfold well_formed. simpl.
  split_and!; try done; lia.
Qed.

Lemma wf_apply_rank p card state challenge_flag g s g' :
  well_formed state →
  Game.apply_rank p card state challenge_flag g = Ok (s, g') → well_formed s.
Proof.
  intros Hwf. unfold Game.apply_rank. intros H.
  assert (0 ≤ pending_draw state) as Hp by apply Hwf.
  repeat case_decide; inv_Ok H;
    repeat match goal with
    | Hd : Game.player_draws _ _ _ _ = Ok _ |- _ =>
        apply (wf_player_draws _ _ _ _ _ _ Hwf) in Hd
    | Ha : advance_turn _ _ = Ok _ |- _ =>
        eapply wf_advance_turn in Ha; [done|]
    end; try done;
    try (apply wf_reverse; done); try (apply wf_pending; [done|lia]).
Qed.

Lemma wf_place_card p card chosen_color state s1 :
  (1 ≤ length (players state))%nat
  ∧ 0 ≤ current_index state < Z.of_nat (length (players state))
  ∧ (direction state = 1 ∨ direction state = -1)
  ∧ 0 ≤ pending_draw state →
  Game.place_card p card chosen_color state = Ok s1 → well_formed s1.
Proof.
  intros (Hn & Hi & Hd & Hp) (pl & h & Hpl & _ & ->)%place_card_inv.
  unfold well_formed.
  destruct (Rank.is_wild (Card.rank card)); simpl; rewrite length_insert;
    split_and!; try done; lia.
Qed.

Lemma wf_play_card p card chosen_color state challenge_flag g s g' :
  well_formed state →
  Game._play_card p card chosen_color state challenge_flag g = Ok (s, g') →
  well_formed s.
Proof.
  intros (Hn & Hi & Hd & Hp & _). unfold Game._play_card. intros H.
  apply bind_Ok in H as (s1 & Hplace & Happly).
  eapply wf_apply_rank; [|done]. by eapply wf_place_card.
Qed.

Lemma wf_with_hand state p pl h :
  well_formed state → well_formed (with_player p (Player.with_hand h pl) state).
Proof.
  intros (Hn & Hi & Hd & Hp & Hdis). unfold well_formed. simpl.
  rewrite length_insert. split_and!; try done; lia.
Qed.

Lemma wf_turn state move g s g' over :
  well_formed state → Game.turn state move g = Ok (s, g', over) → well_formed s.
Proof.
  intros Hwf. unfold Game.turn. intros H.
  apply bind_Ok in H as (p & Hp & H).
  apply bind_Ok in H as (cur & Hcur%player_at_Ok & H).
  case_decide as Hinv.
  { inv_Ok H. eapply wf_advance_turn; [|done]. by eapply wf_player_draws. }
  case_decide as Hdraw.
  - apply bind_Ok in H as ([s1 g1] & H1 & H). inv_Ok H.
    case_bool_decide as Hpend.
    + inv_Ok H1. apply wf_pending; [|done]. by eapply wf_player_draws.
    + destruct (Deck.draw (deck state) g) as [[drawn d] g2] eqn:Hd.
      assert (well_formed (with_deck d state)) as Hwf'.
      { destruct Hwf as (Hn & Hi & Hdir & Hpd & Hdis). unfold well_formed. simpl.
        split_and!; try done; try lia.
        destruct (draw_cases (deck state) g)
          as [(_ & _ & Heq)|(c & d1 & g3 & Heq & _ & _ & _ & Htop)];
          rewrite Heq in Hd; simplify_eq; [done|].
        apply top_discard_nonempty. rewrite Htop. by apply top_discard_nonempty. }
      destruct drawn as [drawn|]; simpl in H1.
      * apply bind_Ok in H1 as (top & _ & H1).
        destruct (Card.matches drawn top _ && _).
        -- eapply wf_play_card; [|done]. by apply wf_with_hand.
        -- inv_Ok H1. eapply wf_advance_turn; [|done]. by apply wf_with_hand.
      * inv_Ok H1. by eapply wf_advance_turn.
  - destruct (Move.card move) as [card|].
    + case_bool_decide; simpl in H.
      * apply bind_Ok in H as (top & _ & H).
        destruct (Card.matches card top (active_color state)); simpl in H.
        -- apply bind_Ok in H as ([s1 g1] & Hplay & H). inv_Ok H.
           by eapply wf_play_card.
        -- inv_Ok H. by eapply wf_advance_turn.
      * inv_Ok H. by eapply wf_advance_turn.
    + inv_Ok H. by eapply wf_advance_turn.
Qed.

(** On a well-formed state the body of the loop returns, whatever the move. *)
Lemma turn_total state move g :
  well_formed state → ∃ s g' over, Game.turn state move g = Ok (s, g', over).
Proof.
  intros Hwf. pose proof Hwf as (Hn & Hi & Hdir & Hpd & Hdis).
  assert (players state ≠ []) as Hne by (destruct (players state); simpl in *; [lia|done]).
  assert (current state = Ok (Z.to_nat (current_index state))) as Hp.
  { unfold current, player_pos, py_index. by rewrite decide_True. }
  set (p := Z.to_nat (current_index state)) in *.
  assert (p < length (players state))%nat as Hlt by lia.
  destruct (lookup_lt_is_Some_2 _ _ Hlt) as [cur Hcur].
  unfold Game.turn. rewrite Hp. simpl.
  rewrite (proj2 (player_at_Ok _ _ _) Hcur). simpl.
  case_decide as Hinv.
  { destruct (player_draws_Ok p 1 state g cur Hcur) as (drawn & d' & g' & -> & _).
    simpl. rewrite advance_turn_Ok by (by apply insert_nonempty). simpl. eauto. }
  case_decide as Hdraw.
  - case_bool_decide as Hpend.
    + destruct (player_draws_Ok p (pending_draw state) state g cur Hcur)
        as (drawn & d' & g' & -> & _).
      simpl. unfold player_at. simpl.
      rewrite list_lookup_insert_eq by done. simpl. eauto.
    + destruct (draw_cases (deck state) g)
        as [(_ & _ & ->)|(c & d1 & g3 & -> & _ & _ & _ & Htop)]; simpl.
      * rewrite advance_turn_Ok by done. simpl.
        unfold player_at. simpl. rewrite Hcur. simpl. eauto.
      * apply top_discard_nonempty in Hdis as [top Htop'].
        rewrite Htop, Htop'. simpl.
        set (pl := Player.with_hand (Player.hand cur ++ [c]) cur).
        destruct (Card.matches c top (active_color state) && no_mercy state).
        -- destruct (play_card_total p c
                       (if Rank.is_wild (Card.rank c) then Some (Game._choose_color_auto pl)
                        else active_color state)
                       (with_player p pl (with_deck d1 state)) false g3 pl)
             as (s & g' & Hplay).
           { simpl. by apply list_lookup_insert_eq. }
           { simpl. apply elem_of_app. right. by apply list_elem_of_singleton. }
           rewrite Hplay. simpl.
           destruct (play_card_keeps_player _ _ _ _ _ _ _ _ Hplay) as [pl' Hpl'].
           { simpl. by rewrite length_insert. }
           rewrite (proj2 (player_at_Ok _ _ _) Hpl'). simpl. eauto.
        -- rewrite advance_turn_Ok by (by apply insert_nonempty). simpl.
           unfold player_at. simpl. rewrite list_lookup_insert_eq by done.
           simpl. eauto.
  - destruct (Move.card move) as [card|]; simpl.
    + case_bool_decide as Hin; simpl.
      * apply top_discard_nonempty in Hdis as [top ->]. simpl.
        destruct (Card.matches card top (active_color state)); simpl.
        -- destruct (play_card_total p card
                       (if Rank.is_wild (Card.rank card) then Move.chosen_color move
                        else active_color state)
                       state (Move.challenge move) g cur Hcur Hin)
             as (s & g' & Hplay).
           rewrite Hplay. simpl.
           destruct (play_card_keeps_player _ _ _ _ _ _ _ _ Hplay Hlt) as [pl' Hpl'].
           rewrite (proj2 (player_at_Ok _ _ _) Hpl'). simpl. eauto.
        -- rewrite advance_turn_Ok by done. simpl. eauto.
      * rewrite advance_turn_Ok by done. simpl. eauto.
    + rewrite advance_turn_Ok by done. simpl. eauto.
Qed.
End safety.

(** ** The opening discard *)

Section opening_discard.
Implicit Types (d : Deck.t) (g : Rng) (c : Card.t) (pile wilds : list Card.t).

Lemma draw_front d g c pile :
  Deck.draw_pile d = c :: pile →
  Deck.draw d g = (Some c, Deck.mk pile (Deck.discard_pile d), g).
Proof. apply draw_pile_cons. Qed.

(** A deck whose cards are all wild hands out wild cards only. *)
Lemma draw_all_wild d g :
  Forall (λ w, Rank.is_wild (Card.rank w) = true) (deck_cards d) →
  (2 ≤ length (deck_cards d))%nat →
  ∃ c d' g', Deck.draw d g = (Some c, d', g')
    ∧ Rank.is_wild (Card.rank c) = true
    ∧ Forall (λ w, Rank.is_wild (Card.rank w) = true) (deck_cards (Deck.discard d' c))
    ∧ length (deck_cards (Deck.discard d' c)) = length (deck_cards d).
Proof.
  intros Hall Hlen.
  destruct (draw_cases d g) as [(Hd & Hdis & _)|(c & d' & g' & Hdraw & Hperm & _)].
  { unfold deck_cards in Hlen. rewrite Hd in Hlen. simpl in Hlen. lia. }
  exists c, d', g'. split; [done|].
  assert (deck_cards (Deck.discard d' c) ≡ₚ deck_cards d) as Hp.
  { rewrite <-Hperm. unfold deck_cards. simpl. solve_Permutation. }
  rewrite Hp. split_and!; [|done|done].
  rewrite <-Hperm in Hall. by apply Forall_cons in Hall as [? _].
Qed.
End opening_discard.

Lemma start_discard_moves_wilds (fuel : nat) (d : Deck.t) (g : Rng)
    (wilds : list Card.t) (c : Card.t) (rest : list Card.t) :
  Deck.draw_pile d = wilds ++ c :: rest →
  Forall (λ w, Rank.is_wild (Card.rank w) = true) wilds →
  Rank.is_wild (Card.rank c) = false →
  (length wilds < fuel)%nat →
  Deck.start_discard_non_wild fuel d g
  = Ok (Deck.mk rest (c :: reverse wilds ++ Deck.discard_pile d), g).
Proof.
  revert fuel d. induction wilds as [|w wilds IH]; intros fuel d Hpile Hw Hc Hfuel.
  - destruct fuel as [|fuel]; [simpl in Hfuel; lia|]. simpl in *.
    rewrite (draw_front d g c rest Hpile). simpl. by rewrite Hc.
  - destruct fuel as [|fuel]; [simpl in Hfuel; lia|].
    apply Forall_cons in Hw as [Hw Hws]. simpl in Hpile, Hfuel.
    cbn [Deck.start_discard_non_wild].
    rewrite (draw_front d g w (wilds ++ c :: rest) Hpile). rewrite Hw. simpl.
    rewrite (IH fuel (Deck.discard (Deck.mk (wilds ++ c :: rest) (Deck.discard_pile d)) w));
      [|done|done|done|lia].
    simpl. by rewrite reverse_cons, <-(assoc (++)).
Qed.

(** [start_discard_non_wild] on a draw pile that shows a card which is not
    wild: the wild cards before it and the card itself move to the discard
    pile one by one, so that the card ends on top with the wild cards below
    it in reverse order; the rest of the draw pile and the tape of random
    numbers are not touched.  The loop runs once per card moved. *)
Theorem start_discard_first_non_wild (fuel : nat) (d : Deck.t) (g : Rng)
    (wilds : list Card.t) (c : Card.t) (rest : list Card.t) :
  Deck.draw_pile d = wilds ++ c :: rest →
  Forall (λ w, Rank.is_wild (Card.rank w) = true) wilds →
  Rank.is_wild (Card.rank c) = false →
  (length wilds < fuel)%nat →
  Deck.start_discard_non_wild fuel d g
  = Ok (Deck.mk rest (c :: reverse wilds ++ Deck.discard_pile d), g).
Proof. apply start_discard_moves_wilds. Qed.

Lemma start_discard_first_non_wild_witness :
  let card (i : nat) (rank : string) := Card.mk i Color.WILD rank in
  let five := Card.mk 5 Color.RED Rank.FIVE in
  let nine := Card.mk 9 Color.BLUE Rank.NINE in
  Deck.start_discard_non_wild 3
    (Deck.mk [card 100%nat Rank.WILD; card 101%nat Rank.WILD_DRAW_FOUR; five; nine] [])
    [7; 7]%nat
  = Ok (Deck.mk [nine]
          [five; card 101%nat Rank.WILD_DRAW_FOUR; card 100%nat Rank.WILD], [7; 7]%nat).
Proof.
  intros card five nine.
  apply (start_discard_first_non_wild 3
           (Deck.mk [card 100%nat Rank.WILD; card 101%nat Rank.WILD_DRAW_FOUR; five; nine] [])
           [7; 7]%nat
           [card 100%nat Rank.WILD; card 101%nat Rank.WILD_DRAW_FOUR] five [nine]).
  - reflexivity.
  - repeat constructor.
  - reflexivity.
  - simpl. lia.
Defined.

(** On a deck of two cards or more that are all wild,
    [start_discard_non_wild] never returns and never raises: it keeps
    drawing and discarding wild cards, recycling the discard pile, and the
    model runs out of fuel whatever the fuel. *)
Theorem start_discard_all_wild (fuel : nat) (d : Deck.t) (g : Rng) :
  Forall (λ w, Rank.is_wild (Card.rank w) = true) (deck_cards d) →
  (2 ≤ length (deck_cards d))%nat →
  Deck.start_discard_non_wild fuel d g = Diverge.
Proof.
  revert d g. induction fuel as [|fuel IH]; intros d g Hall Hlen; [done|].
  destruct (draw_all_wild d g Hall Hlen) as (c & d' & g' & Hdraw & Hc & Hall' & Hlen').
  simpl. rewrite Hdraw, Hc. simpl. apply IH; [done|]. by rewrite Hlen'.
Qed.

Lemma start_discard_all_wild_witness :
  Deck.start_discard_non_wild 1000
    (Deck.mk [Card.mk 100 Color.WILD Rank.WILD]
             [Card.mk 101 Color.WILD Rank.WILD_DRAW_FOUR]) [3; 1; 4]%nat
  = Diverge.
Proof.
  apply start_discard_all_wild.
  - repeat constructor.
  - simpl. lia.
Defined.

(** ** Setting the table *)

Section setup_run.
Import GameState.
Implicit Types (state s : GameState.t) (pl : Player.t) (g : Rng) (pile : list Card.t).

Lemma draw_loop_no_discard count (h : list Card.t) pile g :
  Player.draw_loop count h (Deck.mk pile []) g
  = (h ++ take count pile, Deck.mk (drop count pile) [], g).
Proof.
  revert h pile. induction count as [|count IH]; intros h pile; simpl.
  { by rewrite app_nil_r. }
  destruct pile as [|c pile]; unfold Deck.draw; simpl.
  - rewrite IH. by destruct count.
  - rewrite IH. by rewrite <-(assoc (++)).
Qed.

Lemma player_draws_no_discard p (count : Z) state g pile pl :
  deck state = Deck.mk pile [] → players state !! p = Some pl →
  Game.player_draws p count state g
  = Ok (with_deck (Deck.mk (drop (Z.to_nat count) pile) [])
          (with_player p
             (Player.with_hand (Player.hand pl ++ take (Z.to_nat count) pile) pl) state),
        g).
Proof.
  intros Hd Hp. unfold Game.player_draws.
  rewrite (proj2 (player_at_Ok _ _ _) Hp). simpl.
  unfold Player.draw. rewrite Hd. by rewrite draw_loop_no_discard.
Qed.

(** Dealing from a deck without discards: every position takes the next
    seven cards of the draw pile, as long as there are any. *)
Lemma deal_no_discard positions state g pile :
  deck state = Deck.mk pile [] →
  NoDup positions →
  Forall (λ p, p < length (players state))%nat positions →
  ∃ ps,
    Game.deal positions state g
    = Ok (with_deck (Deck.mk (drop (7 * length positions) pile) [])
            (with_players ps state), g)
    ∧ length ps = length (players state)
    ∧ ∀ i pl, players state !! i = Some pl →
        ∃ dealt,
          ps !! i = Some (Player.with_hand (Player.hand pl ++ dealt) pl)
          ∧ ((7 * length positions ≤ length pile)%nat →
             length dealt = if bool_decide (i ∈ positions) then 7%nat else 0%nat).
Proof.
  revert state pile.
  induction positions as [|p positions IH]; intros state pile Hd Hnd Hlt.
  { exists (players state). simpl. split_and!; [|done|].
    - destruct state. simpl in Hd. by subst.
    - intros i pl Hi. exists []. by rewrite app_nil_r; destruct pl. }
  apply NoDup_cons in Hnd as [Hp Hnd]. apply Forall_cons in Hlt as [Hplt Hlt].
  destruct (lookup_lt_is_Some_2 _ _ Hplt) as [pl0 Hpl0].
  cbn [Game.deal].
  rewrite (player_draws_no_discard p 7 state g pile pl0 Hd Hpl0).
  change (Z.to_nat 7) with 7%nat. simpl.
  set (state1 := with_deck (Deck.mk (drop 7 pile) [])
                   (with_player p (Player.with_hand (Player.hand pl0 ++ take 7 pile) pl0)
                      state)).
  destruct (IH state1 (drop 7 pile)) as (ps & Hdeal & Hlen & Hps); [done|done| |].
  { simpl. by rewrite length_insert. }
  exists ps. split_and!.
  - rewrite Hdeal. do 2 f_equal. unfold state1, with_deck, with_players. simpl.
    do 2 f_equal. rewrite drop_drop. f_equal. lia.
  - rewrite Hlen. simpl. by rewrite length_insert.
  - intros i pl Hi. destruct (decide (i = p)) as [->|Hne].
    + assert (pl0 = pl) as -> by congruence.
      destruct (Hps p (Player.with_hand (Player.hand pl ++ take 7 pile) pl))
        as (dealt & Hl & Hn).
      { simpl. by apply list_lookup_insert_eq. }
      exists (take 7 pile ++ dealt). split.
      { rewrite Hl. simpl. by rewrite <-(assoc (++)). }
      intros Hpile. simpl in Hpile.
      rewrite bool_decide_eq_true_2 by left.
      rewrite bool_decide_eq_false_2 in Hn by done.
      rewrite length_app, length_take, Hn; [lia|]. rewrite length_drop. lia.
    + destruct (Hps i pl) as (dealt & Hl & Hn).
      { simpl. by rewrite list_lookup_insert_ne. }
      exists dealt. split; [done|]. intros Hpile. simpl in Hpile.
      rewrite Hn by (rewrite length_drop; lia).
      destruct (decide (i ∈ positions)) as [Hin|Hout].
      * rewrite !bool_decide_eq_true_2; [done|by right|done].
      * rewrite !bool_decide_eq_false_2; [done| |done].
        rewrite not_elem_of_cons. done.
Qed.

Lemma length_make_players player_count :
  length (Game.make_players player_count) = S (Z.to_nat (player_count - 1)).
Proof. unfold Game.make_players. simpl. by rewrite length_map, length_seqZ. Qed.

Lemma make_players_hands player_count i pl :
  Game.make_players player_count !! i = Some pl → Player.hand pl = [].
Proof.
  unfold Game.make_players. destruct i as [|i]; simpl.
  - by intros [= <-].
  - rewrite list_lookup_fmap. destruct (seqZ 1 (player_count - 1) !! i); [|done].
    by intros [= <-].
Qed.

Lemma start_discard_top fuel (d : Deck.t) g d' g' :
  Deck.start_discard_non_wild fuel d g = Ok (d', g') →
  ∃ top, Deck.top_discard d' = Ok top ∧ Rank.is_wild (Card.rank top) = false.
Proof.
  revert d g. induction fuel as [|fuel IH]; intros d g; simpl; [done|].
  destruct (Deck.draw d g) as [[[c|] d1] g1]; [|done].
  destruct (Rank.is_wild (Card.rank c)) eqn:Hc; simpl.
  - apply IH.
  - intros [= <- <-]. by exists c.
Qed.

Lemma apply_initial_effect_Ok (start : Card.t) state :
  players state ≠ [] →
  Game._apply_initial_effect start state
  = Ok (if decide (Card.rank start = Rank.SKIP) then stepped 1 state
        else if decide (Card.rank start = Rank.REVERSE) then reverse state
        else if decide (Card.rank start = Rank.DRAW_TWO)
             then with_pending_draw (pending_draw state + 2) state
        else state).
Proof.
  intros Hne. unfold Game._apply_initial_effect.
  repeat case_decide; try done. by apply advance_turn_Ok.
Qed.

Lemma setup_unfold (self : Game.t) fuel g :
  Game.setup self fuel g
  = (let pile := (shuffle Deck.build_cards g).1 in
     let players := Game.make_players (Game.player_count self) in
     let s0 := GameState.new (Deck.mk pile []) players (Game.no_mercy self) in
     '(state, g) ← Game.deal (seq 0 (length players)) s0 (shuffle Deck.build_cards g).2;
     '(d, g) ← Deck.start_discard_non_wild fuel (deck state) g;
     let state := with_deck d state in
     top ← Deck.top_discard (deck state);
     let state := with_active_color (Some (Card.color top)) state in
     top ← Deck.top_discard (deck state);
     state ← Game._apply_initial_effect top state;
     Ok (state, g)).
Proof.
  unfold Game.setup, Deck.new, Deck._build.
  by destruct (shuffle Deck.build_cards g).
Qed.

(** The shape of every state that [setup] returns. *)
Lemma setup_inv (self : Game.t) fuel g state g' :
  Game.setup self fuel g = Ok (state, g') →
  ∃ ps d top,
    let pile := (shuffle Deck.build_cards g).1 in
    let n := length (Game.make_players (Game.player_count self)) in
    let s0 := GameState.new (Deck.mk pile []) (Game.make_players (Game.player_count self))
                (Game.no_mercy self) in
    length ps = n
    ∧ (∀ i pl, ps !! i = Some pl →
         ((7 * n ≤ length pile)%nat → length (Player.hand pl) = 7%nat))
    ∧ Deck.start_discard_non_wild fuel (Deck.mk (drop (7 * n) pile) [])
        (shuffle Deck.build_cards g).2 = Ok (d, g')
    ∧ Deck.top_discard d = Ok top
    ∧ Rank.is_wild (Card.rank top) = false
    ∧ Game._apply_initial_effect top
        (with_active_color (Some (Card.color top)) (with_deck d (with_players ps s0)))
      = Ok state.
Proof.
  rewrite setup_unfold. cbv zeta.
  remember (shuffle Deck.build_cards g).1 as pile eqn:Hpile.
  remember (shuffle Deck.build_cards g).2 as g1 eqn:Hg1.
  remember (Game.make_players (Game.player_count self)) as players0 eqn:Hplayers.
  remember (length players0) as n eqn:Hn.
  remember (GameState.new (Deck.mk pile []) players0 (Game.no_mercy self)) as s0 eqn:Hs0.
  destruct (deal_no_discard (seq 0 n) s0 g1 pile) as (ps & Hdeal & Hlen & Hps).
  { by subst s0. }
  { apply NoDup_seq. }
  { apply Forall_forall. intros p Hp%elem_of_seq. subst s0. cbn [players GameState.new]. lia. }
  rewrite length_seq in Hdeal, Hps.
  assert (length (players s0) = n) as Hlen0 by (by subst s0).
  assert (∀ i pl, players s0 !! i = Some pl → Player.hand pl = []) as Hempty.
  { subst s0 players0. cbn [players GameState.new]. apply make_players_hands. }
  intros H. apply bind_Ok in H as ([s1 g2] & Hd & H). rewrite Hdeal in Hd.
  injection Hd as <- <-. cbv beta iota in H.
  apply bind_Ok in H as ([d g2] & Hstart & H). cbv beta iota in H.
  destruct (start_discard_top _ _ _ _ _ Hstart) as (top & Htop & Hwild).
  apply bind_Ok in H as (top1 & Htop1 & H).
  apply bind_Ok in H as (top2 & Htop2 & H).
  apply bind_Ok in H as (s & Heff & [= <- <-]).
  assert (top1 = top) as -> by (cbn in Htop1; congruence).
  assert (top2 = top) as -> by (cbn in Htop2; congruence).
  exists ps, d, top. split_and!; [congruence| |done|done|done|done].
  intros i pl Hi Hcards.
  assert (i < n)%nat as Hin.
  { rewrite <-Hlen0, <-Hlen. by eapply lookup_lt_Some. }
  destruct (lookup_lt_is_Some_2 (players s0) i) as [pl0 Hpl0]; [lia|].
  destruct (Hps i pl0 Hpl0) as (dealt & Hl & Hlendealt). rewrite Hl in Hi.
  injection Hi as <-. cbn [Player.hand Player.with_hand].
  rewrite (Hempty _ _ Hpl0). cbn [app].
  rewrite Hlendealt by done.
  rewrite bool_decide_eq_true_2; [done|]. apply elem_of_seq. lia.
Qed.
End setup_run.

Section setup_outcomes.
Import GameState.
Implicit Types (state s : GameState.t) (pl : Player.t) (g : Rng) (pile : list Card.t).

Lemma first_non_wild pile :
  (length (filter (λ c, Rank.is_wild (Card.rank c) = true) pile) < length pile)%nat →
  ∃ wilds c rest,
    pile = wilds ++ c :: rest
    ∧ Forall (λ w, Rank.is_wild (Card.rank w) = true) wilds
    ∧ Rank.is_wild (Card.rank c) = false
    ∧ (length wilds ≤ length (filter (λ c, Rank.is_wild (Card.rank c) = true) pile))%nat.
Proof.
  induction pile as [|c pile IH]; simpl; [lia|].
  destruct (Rank.is_wild (Card.rank c)) eqn:Hc.
  - rewrite filter_cons_True by done. simpl. intros Hlt.
    destruct IH as (wilds & c' & rest & -> & Hw & Hc' & Hlen); [lia|].
    exists (c :: wilds), c', rest. split_and!; [done| |done|simpl; lia].
    by apply Forall_cons.
  - intros _. exists [], c, pile. split_and!; [done|done|done|simpl; lia].
Qed.

Lemma shuffled_deck g :
  length (shuffle Deck.build_cards g).1 = 108%nat
  ∧ length (filter (λ c, Rank.is_wild (Card.rank c) = true) (shuffle Deck.build_cards g).1)
    = 8%nat.
Proof.
  pose proof (shuffle_perm Deck.build_cards g) as Hp. by rewrite Hp.
Qed.

Lemma wilds_after_drop k pile :
  (length (filter (λ c, Rank.is_wild (Card.rank c) = true) (drop k pile))
   ≤ length (filter (λ c, Rank.is_wild (Card.rank c) = true) pile))%nat.
Proof.
  rewrite <-(take_drop k pile) at 2. rewrite filter_app, length_app. lia.
Qed.

Lemma setup_deal (self : Game.t) g :
  let pile := (shuffle Deck.build_cards g).1 in
  let players0 := Game.make_players (Game.player_count self) in
  let s0 := GameState.new (Deck.mk pile []) players0 (Game.no_mercy self) in
  ∃ ps,
    Game.deal (seq 0 (length players0)) s0 (shuffle Deck.build_cards g).2
    = Ok (with_deck (Deck.mk (drop (7 * length players0) pile) [])
            (with_players ps s0), (shuffle Deck.build_cards g).2)
    ∧ length ps = length players0
    ∧ ((7 * length players0 ≤ 108)%nat →
       Forall (λ pl, length (Player.hand pl) = 7%nat) ps).
Proof.
  intros pile players0 s0.
  destruct (deal_no_discard (seq 0 (length players0)) s0
              (shuffle Deck.build_cards g).2 pile) as (ps & Hdeal & Hlen & Hps).
  { done. }
  { apply NoDup_seq. }
  { apply Forall_forall. intros p Hp%elem_of_seq. unfold s0. cbn [players GameState.new]. lia. }
  rewrite length_seq in Hdeal, Hps. exists ps. split_and!; [done|done|].
  intros Hcards. apply Forall_lookup. intros i pl Hi.
  assert (i < length players0)%nat as Hin.
  { unfold s0 in Hlen. cbn [players GameState.new] in Hlen. rewrite <-Hlen.
    by eapply lookup_lt_Some. }
  destruct (lookup_lt_is_Some_2 players0 i Hin) as [pl0 Hpl0].
  destruct (Hps i pl0 Hpl0) as (dealt & Hl & Hlendealt). rewrite Hl in Hi.
  injection Hi as <-. cbn [Player.hand Player.with_hand].
  rewrite (make_players_hands _ _ _ Hpl0). cbn [app].
  rewrite Hlendealt.
  - rewrite bool_decide_eq_true_2; [done|]. apply elem_of_seq. lia.
  - unfold pile. rewrite (proj1 (shuffled_deck g)). done.
Qed.
End setup_outcomes.

(** With at most fourteen players (any request below two makes two), [start]
    reaches its loop for every shuffle, after at most nine passes through
    the loop of [start_discard_non_wild]: the draw pile keeps ten cards or
    more after the deal and only eight cards are wild.  Every player then
    holds seven cards; the top of the discard pile is not wild and gives the
    active colour; and the opening card has had its effect: SKIP makes
    player 1 begin, REVERSE turns the direction, DRAW_TWO leaves two cards
    pending. *)
Theorem setup_succeeds (player_count : Z) (no_mercy : bool) (fuel : nat) (g : Rng) :
  player_count ≤ 14 → (9 ≤ fuel)%nat →
  ∃ state g' top,
    Game.setup (Game.new player_count no_mercy) fuel g = Ok (state, g')
    ∧ length (GameState.players state) = Z.to_nat (Z.max 2 player_count)
    ∧ Forall (λ pl, length (Player.hand pl) = 7%nat) (GameState.players state)
    ∧ Deck.top_discard (GameState.deck state) = Ok top
    ∧ Rank.is_wild (Card.rank top) = false
    ∧ GameState.active_color state = Some (Card.color top)
    ∧ GameState.current_index state
      = (if decide (Card.rank top = Rank.SKIP) then 1 else 0)
    ∧ GameState.direction state
      = (if decide (Card.rank top = Rank.REVERSE) then -1 else 1)
    ∧ GameState.pending_draw state
      = (if decide (Card.rank top = Rank.DRAW_TWO) then 2 else 0)
    ∧ GameState.no_mercy state = no_mercy.
Proof.
  intros Hcount Hfuel. rewrite setup_unfold. cbv zeta.
  destruct (setup_deal (Game.new player_count no_mercy) g) as (ps & Hdeal & Hlen & Hseven).
  cbv zeta in Hdeal, Hlen, Hseven. cbn [Game.player_count Game.new Game.no_mercy] in *.
  pose proof (length_make_players (Z.max 2 player_count)) as Hn.
  remember (Game.make_players (Z.max 2 player_count)) as players0 eqn:Hplayers.
  remember (length players0) as n eqn:Hnn.
  assert (n = Z.to_nat (Z.max 2 player_count)) as Hnval by lia.
  assert (2 ≤ n ≤ 14)%nat as Hrange by lia.
  rewrite Hdeal. clear Hdeal.
  destruct (shuffled_deck g) as [Hpile Hwilds].
  remember (shuffle Deck.build_cards g).1 as pile eqn:Hpileq.
  remember (shuffle Deck.build_cards g).2 as g1 eqn:Hg1.
  destruct (first_non_wild (drop (7 * n) pile)) as (wilds & c & rest & Hsplit & Hw & Hc & Hlw).
  { pose proof (wilds_after_drop (7 * n) pile). rewrite length_drop. lia. }
  pose proof (wilds_after_drop (7 * n) pile) as Hle.
  remember (GameState.with_players ps (GameState.new (Deck.mk pile []) players0 no_mercy)) as s1 eqn:Hs1.
  assert (GameState.players s1 = ps) as Hps1 by (by subst s1).
  set (d := Deck.mk rest (c :: reverse wilds ++ [])).
  assert (Deck.start_discard_non_wild fuel
            (GameState.deck (GameState.with_deck (Deck.mk (drop (7 * n) pile) []) s1)) g1
          = Ok (d, g1)) as Hstart.
  { apply (start_discard_moves_wilds fuel (Deck.mk (drop (7 * n) pile) []) g1
             wilds c rest); [done|done|done|lia]. }
  change (Ok (GameState.with_deck (Deck.mk (drop (7 * n) pile) []) s1, g1) ≫= _)
    with (Deck.start_discard_non_wild fuel
            (GameState.deck (GameState.with_deck (Deck.mk (drop (7 * n) pile) []) s1)) g1
          ≫= λ '(d, g),
               let state := GameState.with_deck d
                              (GameState.with_deck (Deck.mk (drop (7 * n) pile) []) s1) in
               top ← Deck.top_discard (GameState.deck state);
               let state := GameState.with_active_color (Some (Card.color top)) state in
               top ← Deck.top_discard (GameState.deck state);
               state ← Game._apply_initial_effect top state;
               Ok (state, g)).
  rewrite Hstart.
  change (Ok (d, g1) ≫= _)
    with (Game._apply_initial_effect c
            (GameState.with_active_color (Some (Card.color c))
               (GameState.with_deck d
                  (GameState.with_deck (Deck.mk (drop (7 * n) pile) []) s1)))
          ≫= λ state, Ok (state, g1)).
  rewrite apply_initial_effect_Ok.
  2:{ cbn [GameState.players GameState.with_active_color GameState.with_deck].
      rewrite Hps1. intros ->. simpl in Hlen. lia. }
  eexists _, g1, c. split; [reflexivity|].
  assert ((0 + 1 * 1) `mod` Z.of_nat (length ps) = 1) as Hmod.
  { rewrite Hlen. apply Z.mod_small. lia. }
  repeat case_decide; subst s1; cbn; rewrite ?Hmod;
    (split_and!; try done; try congruence; try (apply Hseven; lia));
    exfalso; unfold Rank.SKIP, Rank.REVERSE, Rank.DRAW_TWO in *; congruence.
Qed.

Lemma setup_succeeds_witness :
  ∃ state g' top,
    Game.setup (Game.new 4 false) 9 [2; 7; 1; 8; 2; 8]%nat = Ok (state, g')
    ∧ length (GameState.players state) = 4%nat
    ∧ Forall (λ pl, length (Player.hand pl) = 7%nat) (GameState.players state)
    ∧ Deck.top_discard (GameState.deck state) = Ok top
    ∧ Rank.is_wild (Card.rank top) = false
    ∧ GameState.active_color state = Some (Card.color top)
    ∧ GameState.current_index state
      = (if decide (Card.rank top = Rank.SKIP) then 1 else 0)
    ∧ GameState.direction state
      = (if decide (Card.rank top = Rank.REVERSE) then -1 else 1)
    ∧ GameState.pending_draw state
      = (if decide (Card.rank top = Rank.DRAW_TWO) then 2 else 0)
    ∧ GameState.no_mercy state = false.
Proof.
  apply (setup_succeeds 4 false 9 [2; 7; 1; 8; 2; 8]%nat); lia.
Defined.

(** With sixteen players or more the deal takes all 108 cards, the first
    [draw] of [start_discard_non_wild] returns [None], which is discarded as
    if it were a card, and [c.rank] raises [AttributeError]: the game cannot
    start, whatever the shuffle. *)
Theorem setup_too_many_players (player_count : Z) (no_mercy : bool) (fuel : nat)
    (g : Rng) :
  16 ≤ player_count →
  Game.setup (Game.new player_count no_mercy) (S fuel) g = Raise AttributeError.
Proof.
  intros Hcount. rewrite setup_unfold. cbv zeta.
  destruct (setup_deal (Game.new player_count no_mercy) g) as (ps & Hdeal & _).
  cbv zeta in Hdeal. cbn [Game.player_count Game.new Game.no_mercy] in *.
  rewrite Hdeal.
  pose proof (length_make_players (Z.max 2 player_count)) as Hn.
  destruct (shuffled_deck g) as [Hpile _].
  rewrite drop_ge by lia. reflexivity.
Qed.

Lemma setup_too_many_players_witness :
  Game.setup (Game.new 16 true) 5 [3; 1; 4]%nat = Raise AttributeError.
Proof. apply (setup_too_many_players 16 true 4 [3; 1; 4]%nat). lia. Defined.

(** ** What holds in every state of a game *)

Section reachable_states.
Import GameState.
Implicit Types (state s : GameState.t) (g : Rng).

Lemma setup_wf (self : Game.t) fuel g state g' :
  Game.setup self fuel g = Ok (state, g') → well_formed state.
Proof.
  intros (ps & d & top & Hlen & _ & _ & Htop & _ & Heff)%setup_inv.
  cbv zeta in *.
  pose proof (length_make_players (Game.player_count self)) as Hn.
  set (s1 := with_active_color _ _) in Heff.
  assert (well_formed s1) as Hwf.
  { unfold well_formed, s1. cbn.
    split_and!;
      first [done|lia|by left|apply top_discard_nonempty; by exists top]. }
  rewrite apply_initial_effect_Ok in Heff.
  2:{ destruct Hwf as (Hwf & _). by destruct (players s1); [simpl in Hwf; lia|]. }
  injection Heff as <-.
  repeat case_decide; try done.
  - by apply wf_stepped.
  - by apply wf_reverse.
  - apply wf_pending; [done|]. destruct Hwf as (_ & _ & _ & ? & _). lia.
Qed.

Lemma reachable_wf state g over : Game.reachable state g over → well_formed state.
Proof.
  induction 1 as [self fuel g state g' Hsetup|state g move state' g' over _ IH Hturn].
  - by eapply setup_wf.
  - by eapply wf_turn.
Qed.

Lemma build_cards_NoDup : NoDup Deck.build_cards.
Proof. apply (bool_decide_unpack _). vm_compute. reflexivity. Qed.
End reachable_states.

(** In every state that the loop of [start] reaches there is a player at
    [current_index], which lies between 0 and the number of players; the
    direction is 1 or -1; [pending_draw] is not negative; the discard pile
    is not empty, so that [top_discard] answers; and no card object is in
    two places: the piles and the hands together hold each card once. *)
Theorem reachable_well_formed (state : GameState.t) (g : Rng) (over : bool) :
  Game.reachable state g over →
  well_formed state ∧ NoDup (all_cards state).
Proof.
  intros Hreach. split; [by eapply reachable_wf|].
  rewrite (reachable_cards _ _ _ Hreach). apply build_cards_NoDup.
Qed.

Lemma reachable_well_formed_witness :
  ∃ state g over,
    (Game.setup (Game.new 3 true) 9 [1; 6; 1; 8; 0; 3]%nat
       ≫= λ '(s, g), Game.turn s Move.invalid g) = Ok (state, g, over)
    ∧ well_formed state ∧ NoDup (all_cards state).
Proof.
  eexists _, _, _. split; [vm_compute; reflexivity|].
  eapply reachable_well_formed.
  eapply (Game.reach_turn _ _ Move.invalid).
  - apply (Game.reach_setup (Game.new 3 true) 9 [1; 6; 1; 8; 0; 3]%nat).
    vm_compute. reflexivity.
  - vm_compute. reflexivity.
Defined.

(** From every state at which the loop of [start] asks for a move, the body
    of the loop runs to its end for every move that a decision procedure
    may return, a malformed one included: no [IndexError], [ValueError],
    [AttributeError] or [ZeroDivisionError] is raised, with any random
    numbers. *)
Theorem loop_never_raises (state : GameState.t) (g : Rng) (move : Move.t) :
  Game.reachable state g false →
  ∀ g0, ∃ state' g' over, Game.turn state move g0 = Ok (state', g', over).
Proof. intros Hwf%reachable_wf g0. by apply turn_total. Qed.

Lemma loop_never_raises_witness :
  ∃ state g,
    Game.setup (Game.new 2 true) 9 [2; 7; 1; 8]%nat = Ok (state, g)
    ∧ ∃ state' g' over,
        Game.turn state (Move.mk "PASS" None (Some "PINK") true) [] = Ok (state', g', over).
Proof.
  eexists _, _. split; [vm_compute; reflexivity|].
  eapply loop_never_raises.
  apply (Game.reach_setup (Game.new 2 true) 9 [2; 7; 1; 8]%nat).
  vm_compute. reflexivity.
Defined.

(** ** The decision procedures *)

(** [HumanPlayer.choose_move], for a card number that [_read_int] accepts:
    it never raises; number 0 is the DRAW move; any other number names the
    card at that place of the hand, which is played with the challenge flag
    off when it matches the table and, under a pending draw, is a DRAW_TWO
    or a WILD_DRAW_FOUR, and gives the INVALID move otherwise.  The colour
    of the move is the colour asked from the terminal for a wild card and
    the active colour for any other. *)
Theorem human_choose_move (self : Player.t) (state : GameState.t) (choice : Z)
    (asked : string) (top : Card.t) :
  Deck.top_discard (GameState.deck state) = Ok top →
  0 ≤ choice ≤ Z.of_nat (length (Player.hand self)) →
  ∃ move,
    HumanPlayer.choose_move self state choice asked = Ok move
    ∧ (choice = 0 → move = Move.draw)
    ∧ (0 < choice →
       ∃ chosen,
         Player.hand self !! Z.to_nat (choice - 1) = Some chosen
         ∧ move
           = if Card.matches chosen top (GameState.active_color state)
                && (bool_decide (GameState.pending_draw state ≤ 0)
                    || bool_decide (Card.rank chosen
                                    ∈ [Rank.DRAW_TWO; Rank.WILD_DRAW_FOUR]))
             then Move.play chosen
                    (if Rank.is_wild (Card.rank chosen) then Some asked
                     else GameState.active_color state) false
             else Move.invalid).
Proof.
  intros Htop Hchoice. unfold HumanPlayer.choose_move. rewrite Htop. simpl.
  case_decide as Hzero.
  { exists Move.draw. split_and!; [done|done|lia]. }
  assert (Z.to_nat (choice - 1) < length (Player.hand self))%nat as Hlt by lia.
  destruct (lookup_lt_is_Some_2 _ _ Hlt) as [chosen Hchosen].
  exists (if Card.matches chosen top (GameState.active_color state)
             && (bool_decide (GameState.pending_draw state ≤ 0)
                 || bool_decide (Card.rank chosen
                                 ∈ [Rank.DRAW_TWO; Rank.WILD_DRAW_FOUR]))
          then Move.play chosen
                 (if Rank.is_wild (Card.rank chosen) then Some asked
                  else GameState.active_color state) false
          else Move.invalid).
  split_and!; [|by intros ?|intros _; by exists chosen].
  unfold py_index. rewrite decide_True by lia. simpl. rewrite Hchosen.
  assert (bool_decide (GameState.pending_draw state ≤ 0)
          = negb (bool_decide (GameState.pending_draw state > 0))) as ->.
  { destruct (decide (GameState.pending_draw state > 0)).
    - rewrite (bool_decide_eq_true_2 (_ > 0)) by done.
      by rewrite bool_decide_eq_false_2 by lia.
    - rewrite (bool_decide_eq_false_2 (_ > 0)) by done.
      by rewrite bool_decide_eq_true_2 by lia. }
  destruct (Card.matches chosen top (GameState.active_color state)); simpl; [|done].
  by destruct (bool_decide (GameState.pending_draw state > 0)),
    (bool_decide (Card.rank chosen ∈ [Rank.DRAW_TWO; Rank.WILD_DRAW_FOUR])).
Qed.

Lemma human_choose_move_witness :
  ∃ move,
    (human ← GameState.player_at Scenario.under_pending 0;
     HumanPlayer.choose_move human Scenario.under_pending 1 Color.BLUE) = Ok move
    ∧ move = Move.invalid.
Proof.
  destruct (human_choose_move
              (Player.mk Player.HumanPlayer "You" (Scenario.pick [10; 11; 7]%nat))
              Scenario.under_pending 1 Color.BLUE (Card.mk 5 Color.RED Rank.FIVE))
    as (move & Hmove & _ & Hplay); [reflexivity|simpl; lia|].
  exists move. split; [exact Hmove|].
  destruct Hplay as (chosen & Hchosen & ->); [lia|].
  injection Hchosen as <-. reflexivity.
Defined.

Section automated_player.
Import GameState.
Implicit Types (state : GameState.t) (self : Player.t) (top c : Card.t).

Lemma prefer_action_spec self state top cards best :
  match AggressiveAI.prefer_action self state top cards best with
  | inl m =>
      ∃ c, c ∈ cards ∧ Card.matches c top (active_color state) = true
        ∧ ((Card.rank c = Rank.WILD_DRAW_FOUR
            ∧ Player.has_color self (active_color state) = false
            ∧ m = Move.play c (Some (AggressiveAI._best_color_choice self)) true)
           ∨ (Card.rank c ∈ [Rank.DRAW_TWO; Rank.SKIP; Rank.REVERSE]
              ∧ m = Move.play c (active_color state) false))
  | inr None =>
      best = None ∧ ∀ c, c ∈ cards → Card.matches c top (active_color state) = false
  | inr (Some b) =>
      best = Some b
      ∨ (best = None ∧ b ∈ cards ∧ Card.matches b top (active_color state) = true)
  end.
Proof.
  revert best. induction cards as [|c cards IH]; intros best; simpl.
  { destruct best; [by left|]. split; [done|]. by intros c ?%elem_of_nil. }
  destruct (Card.matches c top (active_color state)) eqn:Hm; simpl.
  - assert (match AggressiveAI.prefer_action self state top cards
                    (match best with Some _ => best | None => Some c end) with
            | inl m =>
                ∃ c0, c0 ∈ c :: cards ∧ Card.matches c0 top (active_color state) = true
                  ∧ ((Card.rank c0 = Rank.WILD_DRAW_FOUR
                      ∧ Player.has_color self (active_color state) = false
                      ∧ m = Move.play c0 (Some (AggressiveAI._best_color_choice self)) true)
                     ∨ (Card.rank c0 ∈ [Rank.DRAW_TWO; Rank.SKIP; Rank.REVERSE]
                        ∧ m = Move.play c0 (active_color state) false))
            | inr None =>
                best = None
                ∧ ∀ c0, c0 ∈ c :: cards → Card.matches c0 top (active_color state) = false
            | inr (Some b) =>
                best = Some b
                ∨ (best = None ∧ b ∈ c :: cards
                   ∧ Card.matches b top (active_color state) = true)
            end) as Hkeep.
    { specialize (IH (match best with Some _ => best | None => Some c end)).
      destruct (AggressiveAI.prefer_action _ _ _ cards _) as [m|[b|]].
      - destruct IH as (c0 & Hin & Hrest). exists c0. split; [by right|done].
      - destruct best as [b0|].
        + destruct IH as [IH|(? & _)]; [by left|done].
        + destruct IH as [[= <-]|(? & _)]; [|done]. right. split_and!; [done|by left|done].
      - destruct IH as [IH _]. by destruct best. }
    case_decide as Hfour.
    + destruct (Player.has_color self (active_color state)) eqn:Hcol; simpl; [done|].
      exists c. split; [by left|]. split; [done|]. by left.
    + case_bool_decide as Hact; [|done].
      exists c. split; [by left|]. split; [done|]. by right.
  - specialize (IH best).
    destruct (AggressiveAI.prefer_action _ _ _ cards _) as [m|[b|]].
    + destruct IH as (c0 & Hin & Hrest). exists c0. split; [by right|done].
    + destruct IH as [IH|(? & Hin & Hb)]; [by left|].
      right. split_and!; [done|by right|done].
    + destruct IH as [-> IH]. split; [done|].
      intros c0 [->|Hin]%elem_of_cons; [done|by apply IH].
Qed.
End automated_player.

Section automated_moves.
Import GameState.
Implicit Types (state : GameState.t) (self : Player.t) (top c : Card.t).

Lemma has_playable_true self top (active : option string) :
  Player.has_playable self top active = true
  ↔ ∃ c, c ∈ Player.hand self ∧ Card.matches c top active = true.
Proof.
  unfold Player.has_playable. rewrite existsb_exists.
  split; intros (c & Hin & Hm); exists c; split; try done; by apply list_elem_of_In.
Qed.

Lemma action_not_wild rank :
  rank ∈ [Rank.DRAW_TWO; Rank.SKIP; Rank.REVERSE] → Rank.is_wild rank = false.
Proof.
  rewrite !elem_of_cons, elem_of_nil. intros [->|[->|[->|[]]]]; done.
Qed.
End automated_moves.

Lemma automated_choose_move_facts (self : Player.t) (state : GameState.t) (top : Card.t) :
  Deck.top_discard (GameState.deck state) = Ok top →
  GameState.pending_draw state ≤ 0 →
  ∃ move,
    AggressiveAI.choose_move self state = Ok move
    ∧ if Player.has_playable self top (GameState.active_color state)
      then ∃ card chosen_color flag,
             move = Move.play card chosen_color flag
             ∧ card ∈ Player.hand self
             ∧ Card.matches card top (GameState.active_color state) = true
             ∧ chosen_color
               = (if Rank.is_wild (Card.rank card)
                  then Some (AggressiveAI._best_color_choice self)
                  else GameState.active_color state)
             ∧ (flag = true →
                Card.rank card = Rank.WILD_DRAW_FOUR
                ∧ Player.has_color self (GameState.active_color state) = false)
      else move = Move.draw.
Proof.
  intros Htop Hpend. unfold AggressiveAI.choose_move. rewrite Htop. simpl.
  rewrite bool_decide_eq_false_2 by lia.
  pose proof (prefer_action_spec self state top (Player.hand self) None) as Hspec.
  destruct (AggressiveAI.prefer_action self state top (Player.hand self) None)
    as [m|[b|]].
  - destruct Hspec as (c & Hin & Hm & Hcase). exists m. split; [done|].
    rewrite (proj2 (has_playable_true _ _ _)) by eauto.
    destruct Hcase as [(Hr & Hcol & ->)|(Hr & ->)].
    + eexists c, _, true. split_and!; try done. by rewrite Hr.
    + eexists c, _, false. split_and!; try done. by rewrite (action_not_wild _ Hr).
  - destruct Hspec as [?|(_ & Hin & Hm)]; [done|].
    eexists. split; [done|].
    rewrite (proj2 (has_playable_true _ _ _)) by eauto.
    eexists b, _, false. by split_and!.
  - destruct Hspec as [_ Hnone]. exists Move.draw. split; [done|].
    destruct (Player.has_playable self top (GameState.active_color state)) eqn:Hp;
      [|done].
    apply has_playable_true in Hp as (c & Hin & Hm). by rewrite (Hnone c Hin) in Hm.
Qed.

(** [AggressiveAI.choose_move] with nothing pending: it never raises and
    never returns the INVALID move.  It answers DRAW exactly when no card of
    the hand matches the table; otherwise it plays a card of its hand that
    matches, with the active colour for a card that is not wild and its
    most held colour for a wild card, and it raises the challenge flag only
    on a WILD_DRAW_FOUR that it plays while holding no card of the active
    colour. *)
Theorem automated_choose_move (self : Player.t) (state : GameState.t) (top : Card.t) :
  Deck.top_discard (GameState.deck state) = Ok top →
  GameState.pending_draw state ≤ 0 →
  ∃ move,
    AggressiveAI.choose_move self state = Ok move
    ∧ if Player.has_playable self top (GameState.active_color state)
      then ∃ card chosen_color flag,
             move = Move.play card chosen_color flag
             ∧ card ∈ Player.hand self
             ∧ Card.matches card top (GameState.active_color state) = true
             ∧ chosen_color
               = (if Rank.is_wild (Card.rank card)
                  then Some (AggressiveAI._best_color_choice self)
                  else GameState.active_color state)
             ∧ (flag = true →
                Card.rank card = Rank.WILD_DRAW_FOUR
                ∧ Player.has_color self (GameState.active_color state) = false)
      else move = Move.draw.
Proof. apply automated_choose_move_facts. Qed.

Lemma automated_choose_move_witness :
  ∃ move,
    (automated ← GameState.player_at Scenario.holding_red 1;
     AggressiveAI.choose_move automated Scenario.holding_red) = Ok move
    ∧ move = Move.draw.
Proof.
  destruct (automated_choose_move
              (Player.mk Player.AggressiveAI "AI-1" (Scenario.pick [84; 54; 29]%nat))
              Scenario.holding_red (Card.mk 3 Color.RED Rank.THREE))
    as (move & Hmove & Hcase); [reflexivity|simpl; lia|].
  exists move. split; [exact Hmove|]. exact Hcase.
Defined.

(** Under a pending draw the automated player does not look at the table:
    it answers with the first DRAW_TWO or WILD_DRAW_FOUR of its hand.  When
    that card does not match, the engine forfeits the turn: nobody draws,
    no card moves, [pending_draw] keeps its amount and the turn passes on,
    so that the next player inherits the pending draw. *)
Theorem unmatched_stack_forfeits (state : GameState.t) (g : Rng) (p : nat)
    (self : Player.t) (stack top : Card.t) :
  GameState.current state = Ok p →
  GameState.players state !! p = Some self →
  GameState.pending_draw state > 0 →
  Deck.top_discard (GameState.deck state) = Ok top →
  AggressiveAI._best_stack_card self = Some stack →
  Card.matches stack top (GameState.active_color state) = false →
  ∃ move s,
    AggressiveAI.choose_move self state = Ok move
    ∧ Game.turn state move g = Ok (s, g, false)
    ∧ GameState.deck s = GameState.deck state
    ∧ GameState.players s = GameState.players state
    ∧ GameState.pending_draw s = GameState.pending_draw state
    ∧ GameState.current_index s
      = (GameState.current_index state + 1 * GameState.direction state)
          `mod` Z.of_nat (length (GameState.players state)).
Proof.
  intros Hp Hself Hpend Htop Hstack Hm.
  assert (stack ∈ Player.hand self) as Hin.
  { unfold AggressiveAI._best_stack_card in Hstack.
    apply find_some in Hstack as [Hin _]. by apply list_elem_of_In. }
  eexists _, (stepped 1 state). split_and!; try done.
  - unfold AggressiveAI.choose_move. rewrite Htop. simpl.
    rewrite bool_decide_eq_true_2 by done. by rewrite Hstack.
  - by eapply turn_no_match.
Qed.

Lemma unmatched_stack_forfeits_witness :
  ∃ move s,
    (automated ← GameState.player_at Scenario.blue_chosen 1;
     AggressiveAI.choose_move automated Scenario.blue_chosen) = Ok move
    ∧ Game.turn Scenario.blue_chosen move [] = Ok (s, [], false)
    ∧ GameState.deck s = GameState.deck Scenario.blue_chosen
    ∧ GameState.players s = GameState.players Scenario.blue_chosen
    ∧ GameState.pending_draw s = 4
    ∧ GameState.current_index s = 0.
Proof.
  destruct (unmatched_stack_forfeits Scenario.blue_chosen [] 1
              (Player.mk Player.AggressiveAI "AI-1" (Scenario.pick [84; 12; 29]%nat))
              Scenario.red_draw_two Scenario.wild_draw_four)
    as (move & s & Hmove & Hturn & Hd & Hps & Hpd & Hi);
    [reflexivity..|].
  exists move, s. split_and!; try done.
Defined.

Section backfire.
Import GameState.
Implicit Types (state : GameState.t) (self : Player.t) (top c : Card.t).

(** A hand with a card of a standard colour holds a card of its most held
    colour. *)
Lemma most_held_in_hand self c :
  c ∈ Player.hand self → Card.color c ∈ Color.STANDARD →
  ∃ c', c' ∈ Player.hand self
    ∧ Card.color c' = most_held (Player.count_color self)
    ∧ Card.color c' ∈ Color.STANDARD.
Proof.
  intros Hin Hstd.
  destruct (most_held_spec (Player.count_color self)) as (Hbest & Hmax & _).
  specialize (Hmax _ Hstd).
  assert (0 < Player.count_color self (Card.color c))%nat as Hpos.
  { unfold Player.count_color.
    assert (c ∈ filter (λ x, Card.color x = Card.color c) (Player.hand self)) as Hc
      by (by apply list_elem_of_filter).
    destruct (filter _ (Player.hand self)); [by apply elem_of_nil in Hc|simpl; lia]. }
  unfold Player.count_color in Hmax at 2.
  destruct (filter (λ x, Card.color x = most_held (Player.count_color self))
              (Player.hand self)) as [|c' l] eqn:Hf; [simpl in Hmax; lia|].
  assert (c' ∈ filter (λ x, Card.color x = most_held (Player.count_color self))
                 (Player.hand self)) as Hc' by (rewrite Hf; left).
  apply list_elem_of_filter in Hc' as [Hcol Hin'].
  exists c'. split_and!; [done|done|by rewrite Hcol].
Qed.

Lemma has_color_true self (color : option string) c :
  c ∈ Player.hand self → Rank.is_wild (Card.rank c) = false →
  Some (Card.color c) = color → Player.has_color self color = true.
Proof.
  intros Hin Hw Hc. unfold Player.has_color. apply existsb_exists.
  exists c. split; [by apply list_elem_of_In|].
  by rewrite Hw, bool_decide_eq_true_2.
Qed.
End backfire.

(** The automated player raises the challenge flag on the WILD_DRAW_FOUR
    that it plays after checking that it holds no card of the active colour,
    and it chooses its most held colour.  The engine takes the flag for a
    challenge and judges the play by the chosen colour, of which the player
    holds a card as soon as it holds any coloured card: the player itself
    draws the four cards (or what the deck can supply), nothing is left
    pending and the turn passes on. *)
Theorem automated_wild_draw_four_backfires (state : GameState.t) (g : Rng) (p : nat)
    (self : Player.t) (card top : Card.t) (chosen_color : option string) :
  GameState.current state = Ok p →
  GameState.players state !! p = Some self →
  GameState.pending_draw state ≤ 0 →
  Deck.top_discard (GameState.deck state) = Ok top →
  AggressiveAI.choose_move self state = Ok (Move.play card chosen_color true) →
  (∃ c, c ∈ Player.hand self ∧ Card.color c ∈ Color.STANDARD) →
  Forall (λ c, Card.color c ∈ Color.STANDARD → Rank.is_wild (Card.rank c) = false)
         (Player.hand self) →
  ∃ h drawn s g',
    Card.rank card = Rank.WILD_DRAW_FOUR
    ∧ Player.has_color self (GameState.active_color state) = false
    ∧ list_remove card (Player.hand self) = Ok h
    ∧ Game.turn state (Move.play card chosen_color true) g = Ok (s, g', false)
    ∧ GameState.players s
      = <[p:=Player.with_hand (h ++ drawn) self]> (GameState.players state)
    ∧ length drawn
      = (4 `min` (length (Deck.draw_pile (GameState.deck state))
                  + length (Deck.discard_pile (GameState.deck state))))%nat
    ∧ GameState.pending_draw s = GameState.pending_draw state
    ∧ GameState.active_color s = chosen_color.
Proof.
  intros Hp Hself Hpend Htop Hmove (c & Hc & Hstd) Hfaces.
  destruct (automated_choose_move_facts self state top Htop Hpend) as (move & Hmv & Hcase).
  rewrite Hmove in Hmv. injection Hmv as <-.
  destruct (Player.has_playable self top (GameState.active_color state)); [|done].
  destruct Hcase as (card' & cc' & flag & [= <- <- <-] & Hin & Hm & Hcc & Hflag).
  destruct (Hflag eq_refl) as [Hr Hlegal].
  pose proof (wild_draw_four_is_wild _ Hr) as Hwild. rewrite Hwild in Hcc.
  destruct (play_card_unfold p card chosen_color state true g self Hself Hin)
    as (h & s1 & Hh & Hplace & Hs1 & Hps & Hplay).
  rewrite Hwild in Hs1. cbv zeta in Hs1.
  assert (GameState.players s1 !! p = Some (Player.with_hand h self)) as Hp1.
  { rewrite Hps. apply list_lookup_insert_eq. by eapply lookup_lt_Some. }
  destruct (most_held_in_hand self c Hc Hstd) as (c' & Hc' & Hcol' & Hstd').
  assert (Rank.is_wild (Card.rank c') = false) as Hnw.
  { rewrite Forall_forall in Hfaces. by apply Hfaces. }
  assert (c' ∈ h) as Hc'h.
  { pose proof (list_remove_Ok _ _ _ Hh) as Hperm. rewrite Hperm in Hc'.
    apply elem_of_cons in Hc' as [->|?]; [congruence|done]. }
  assert (Game._player_had_active_color_before_wdf (Player.with_hand h self) s1 = true)
    as Hillegal.
  { subst s1. unfold Game._player_had_active_color_before_wdf. cbn.
    apply existsb_exists. exists c'. split; [by apply list_elem_of_In|].
    rewrite Hnw, bool_decide_eq_true_2; [done|].
    rewrite Hcc. f_equal. done. }
  destruct (apply_rank_wild_draw_four p card s1 true g _ Hr Hp1)
    as (o & opponent & s & g' & _ & _ & Happly & _ & _ & Hcol & Hout).
  cbv zeta in Hout. rewrite orb_true_r, Hillegal in Hout.
  destruct Hout as (Hpd & drawn & d' & Hlen & _ & _ & Hplayers).
  exists h, drawn, s, g'. split_and!; try done.
  - assert (GameState.players s !! p
            = Some (Player.with_hand (h ++ drawn) self)) as Hps'.
    { rewrite Hplayers. apply list_lookup_insert_eq.
      rewrite Hps, length_insert. by eapply lookup_lt_Some. }
    rewrite (turn_play state card chosen_color true g p self top s g'
               (Player.with_hand (h ++ drawn) self)
               Hp Hself Hin Htop Hm); [|by rewrite Hwild, Hplay|exact Hps'].
    do 3 f_equal. unfold Game._check_win. apply bool_decide_eq_false_2. cbn.
    intros Hnil. apply app_eq_nil in Hnil as [-> _]. by apply elem_of_nil in Hc'h.
  - rewrite Hplayers, Hps. by rewrite list_insert_insert_eq.
  - rewrite Hlen. subst s1. unfold supply. cbn. done.
  - rewrite Hpd. by subst s1.
  - rewrite Hcol. by subst s1.
Qed.

Lemma automated_wild_draw_four_backfires_witness :
  ∃ (h drawn : list Card.t) s g',
    (automated ← GameState.player_at Scenario.automated_wild 1;
     AggressiveAI.choose_move automated Scenario.automated_wild)
    = Ok (Move.play Scenario.wild_draw_four (Some Color.BLUE) true)
    ∧ h = Scenario.pick [80; 84; 54]%nat
    ∧ Game.turn Scenario.automated_wild
        (Move.play Scenario.wild_draw_four (Some Color.BLUE) true) []
      = Ok (s, g', false)
    ∧ length ∘ Player.hand <$> GameState.players s = [3; 3 + 4]%nat
    ∧ length drawn = 4%nat
    ∧ GameState.pending_draw s = 0
    ∧ GameState.active_color s = Some Color.BLUE.
Proof.
  destruct (automated_wild_draw_four_backfires Scenario.automated_wild [] 1
              (Player.mk Player.AggressiveAI "AI-1" (Scenario.pick [101; 80; 84; 54]%nat))
              Scenario.wild_draw_four (Card.mk 3 Color.RED Rank.THREE) (Some Color.BLUE))
    as (h & drawn & s & g' & _ & _ & Hh & Hturn & Hps & Hlen & Hpd & Hcol).
  - reflexivity.
  - reflexivity.
  - simpl. lia.
  - reflexivity.
  - vm_compute. reflexivity.
  - exists (Card.mk 80 Color.BLUE Rank.FIVE).
    split; apply (bool_decide_unpack _); vm_compute; reflexivity.
  - apply (bool_decide_unpack _). vm_compute. reflexivity.
  - injection Hh as <-.
    exists (Scenario.pick [80; 84; 54]%nat), drawn, s, g'.
    split_and!; try done.
    + rewrite Hps.
      change ([3%nat; length (Scenario.pick [80; 84; 54]%nat ++ drawn)]
              = [3%nat; (3 + 4)%nat]).
      rewrite length_app, Hlen. reflexivity.
Defined.

(** ** Turn order *)

(** [advance_turn] adds up: advancing by [a] and then by [b] is advancing by
    [a + b]; advancing by the number of players comes back to the same
    state; [reverse] undoes itself; and [next_player] is the player whom
    [advance_turn(1)] makes current.  An empty list of players makes
    [advance_turn] raise [ZeroDivisionError]. *)
Theorem turn_order_algebra (state : GameState.t) (a b : Z) :
  let n := Z.of_nat (length (GameState.players state)) in
  GameState.reverse (GameState.reverse state) = state
  ∧ (GameState.players state = [] →
     GameState.advance_turn state a = Raise ZeroDivisionError)
  ∧ (GameState.players state ≠ [] →
     (s ← GameState.advance_turn state a; GameState.advance_turn s b)
     = GameState.advance_turn state (a + b)
     ∧ GameState.next_player state
       = (s ← GameState.advance_turn state 1; GameState.current s)
     ∧ (0 ≤ GameState.current_index state < n →
        GameState.advance_turn state n = Ok state)).
Proof.
  intros n. split_and!.
  - destruct state. unfold GameState.reverse, GameState.with_direction. simpl.
    f_equal. lia.
  - intros Hnil. unfold GameState.advance_turn. rewrite Hnil. done.
  - intros Hne.
    assert (0 < n) as Hn by (unfold n; destruct (GameState.players state); simpl; [done|lia]).
    rewrite !advance_turn_Ok by done. fold n.
    change (Ok ?x ≫= ?k) with (k x). cbv beta.
    rewrite advance_turn_Ok by done. split_and!.
    + unfold GameState.with_current_index. cbn. fold n. f_equal. f_equal.
      rewrite Zplus_mod_idemp_l. f_equal. lia.
    + unfold GameState.next_player, GameState.current. fold n.
      rewrite decide_False by lia.
      unfold GameState.player_pos, GameState.with_current_index. cbn. fold n.
      do 2 f_equal. lia.
    + intros Hi. destruct state. unfold GameState.with_current_index. cbn in *.
      fold n. f_equal. f_equal.
      rewrite (Z.mul_comm n), Z_mod_plus_full. by apply Z.mod_small.
Qed.

Lemma turn_order_algebra_witness :
  (s ← GameState.advance_turn Scenario.three_players 2; GameState.advance_turn s 5)
  = GameState.advance_turn Scenario.three_players 7
  ∧ GameState.next_player Scenario.three_players = Ok 1%nat
  ∧ GameState.advance_turn Scenario.three_players 3 = Ok Scenario.three_players.
Proof.
  destruct (turn_order_algebra Scenario.three_players 2 5) as (_ & _ & H).
  destruct H as (Hadd & Hnext & Hround); [done|].
  split_and!; [exact Hadd|by rewrite Hnext|].
  apply Hround. simpl. lia.
Defined.

(** ** Penalties *)

(** The INVALID move: the current player draws one card (none when the deck
    cannot supply one), the turn advances one step and nothing else
    changes.  In particular [pending_draw] keeps its amount, which the next
    player inherits, and the game does not end, not even when the hand of
    the player is empty. *)
Theorem invalid_move_penalty (state : GameState.t) (move : Move.t) (g : Rng)
    (p : nat) (cur : Player.t) :
  GameState.current state = Ok p →
  GameState.players state !! p = Some cur →
  Move.type_ move = Move.INVALID →
  ∃ drawn s g',
    Game.turn state move g = Ok (s, g', false)
    ∧ length drawn = (1 `min` supply (GameState.deck state))%nat
    ∧ drawn ++ deck_cards (GameState.deck s) ≡ₚ deck_cards (GameState.deck state)
    ∧ GameState.players s
      = <[p:=Player.with_hand (Player.hand cur ++ drawn) cur]> (GameState.players state)
    ∧ GameState.pending_draw s = GameState.pending_draw state
    ∧ GameState.active_color s = GameState.active_color state
    ∧ GameState.direction s = GameState.direction state
    ∧ GameState.current_index s
      = (GameState.current_index state + 1 * GameState.direction state)
          `mod` Z.of_nat (length (GameState.players state)).
Proof.
  intros Hp Hcur Htype.
  destruct (player_draws_Ok p 1 state g cur Hcur) as (drawn & d' & g' & Hdraw & Hlen & Hperm & _).
  exists drawn, (stepped 1 (GameState.with_deck d'
                    (GameState.with_player p
                       (Player.with_hand (Player.hand cur ++ drawn) cur) state))), g'.
  split_and!; try done.
  - unfold Game.turn. rewrite Hp. simpl.
    rewrite (proj2 (player_at_Ok _ _ _) Hcur). simpl.
    rewrite decide_True by done. rewrite Hdraw. simpl.
    rewrite advance_turn_Ok; [done|]. simpl.
    apply insert_nonempty. by eapply players_nonempty.
  - cbn. by rewrite length_insert.
Qed.

Lemma invalid_move_penalty_witness :
  ∃ (drawn : list Card.t) s g',
    Game.turn Scenario.under_pending Move.invalid [] = Ok (s, g', false)
    ∧ length drawn = 1%nat
    ∧ length ∘ Player.hand <$> GameState.players s = [3 + 1; 3]%nat
    ∧ GameState.pending_draw s = 4
    ∧ GameState.current_index s = 1.
Proof.
  destruct (invalid_move_penalty Scenario.under_pending Move.invalid [] 0
              (Player.mk Player.HumanPlayer "You" (Scenario.pick [10; 11; 7]%nat)))
    as (drawn & s & g' & Hturn & Hlen & _ & Hps & Hpd & _ & _ & Hi);
    [reflexivity..|].
  exists drawn, s, g'. split_and!; try done.
  rewrite Hps.
  change ([length (Scenario.pick [10; 11; 7]%nat ++ drawn); 3%nat] = [(3 + 1)%nat; 3%nat]).
  rewrite length_app, Hlen. reflexivity.
Defined.

(** ** The end of the game *)

Section game_over.
Import GameState.
Implicit Types (state s : GameState.t) (pl : Player.t) (g : Rng) (card : Card.t).

Lemma player_draws_hand q count state g s g' p pl :
  Game.player_draws q count state g = Ok (s, g') →
  players state !! p = Some pl →
  ∃ pl', players s !! p = Some pl'
    ∧ (length (Player.hand pl) ≤ length (Player.hand pl'))%nat.
Proof.
  intros (plq & drawn & d' & Hq & -> & _)%player_draws_inv Hp. cbn.
  destruct (decide (q = p)) as [->|Hne].
  - assert (plq = pl) as -> by congruence.
    eexists. split; [apply list_lookup_insert_eq; by eapply lookup_lt_Some|].
    cbn. rewrite length_app. lia.
  - exists pl. split; [by rewrite list_lookup_insert_ne|done].
Qed.

Lemma apply_rank_hand p card state challenge_flag g s g' pl :
  Game.apply_rank p card state challenge_flag g = Ok (s, g') →
  players state !! p = Some pl →
  ∃ pl', players s !! p = Some pl'
    ∧ (length (Player.hand pl) ≤ length (Player.hand pl'))%nat.
Proof.
  unfold Game.apply_rank. intros H Hp.
  repeat case_decide; inv_Ok H;
    repeat match goal with
    | Ha : advance_turn _ _ = Ok _ |- _ => apply advance_turn_inv in Ha as ->
    end;
    try (by exists pl);
    match goal with
    | Hd : Game.player_draws _ _ _ _ = Ok _ |- _ =>
        by apply (player_draws_hand _ _ _ _ _ _ p pl Hd)
    end.
Qed.

Lemma play_card_hand p card chosen_color state challenge_flag g s g' pl :
  Game._play_card p card chosen_color state challenge_flag g = Ok (s, g') →
  players state !! p = Some pl →
  ∃ pl', players s !! p = Some pl'
    ∧ (length (Player.hand pl) ≤ S (length (Player.hand pl')))%nat.
Proof.
  unfold Game._play_card. intros H Hp.
  apply bind_Ok in H as (s1 & Hplace & Happly).
  apply place_card_inv in Hplace as (pl0 & h & Hp0 & Hh & Hs1).
  assert (pl0 = pl) as -> by congruence.
  assert (players s1 !! p = Some (Player.with_hand h pl)) as Hp1.
  { subst s1. destruct (Rank.is_wild (Card.rank card)); cbn;
      apply list_lookup_insert_eq; by eapply lookup_lt_Some. }
  destruct (apply_rank_hand _ _ _ _ _ _ _ _ Happly Hp1) as (pl' & Hpl' & Hle).
  exists pl'. split; [done|]. cbn in Hle.
  apply list_remove_Ok, Permutation_length in Hh. simpl in Hh. lia.
Qed.
End game_over.

(** The loop of [start] is left only after a move that was applied and
    left the player who moved without a card.  An INVALID move and a
    forfeited PLAY never end the game, and neither does a DRAW move of a
    player who holds a card: what is drawn is kept or, under the no-mercy
    rule, played at once, so that the hand does not shrink. *)
Theorem game_over_needs_empty_hand (state : GameState.t) (move : Move.t) (g : Rng)
    (p : nat) (cur : Player.t) (s : GameState.t) (g' : Rng) (over : bool) :
  GameState.current state = Ok p →
  GameState.players state !! p = Some cur →
  Game.turn state move g = Ok (s, g', over) →
  ∃ pl',
    GameState.players s !! p = Some pl'
    ∧ (over = true → Player.hand pl' = [] ∧ Move.type_ move ≠ Move.INVALID)
    ∧ (Move.type_ move = Move.DRAW → Player.hand cur ≠ [] → over = false)
    ∧ (length (Player.hand cur) ≤ S (length (Player.hand pl')))%nat.
Proof.
  intros Hp Hcur. unfold Game.turn. rewrite Hp. simpl.
  rewrite (proj2 (player_at_Ok _ _ _) Hcur). simpl. intros H.
  assert (∀ pl' : Player.t, Game._check_win pl' = true → Player.hand pl' = []) as Hwin.
  { intros pl'. unfold Game._check_win. by intros ?%bool_decide_eq_true. }
  assert (∀ pl' : Player.t, (1 ≤ length (Player.hand pl'))%nat →
                            Game._check_win pl' = false) as Hnowin.
  { intros pl' Hl. unfold Game._check_win. apply bool_decide_eq_false_2.
    intros Hnil. rewrite Hnil in Hl. simpl in Hl. lia. }
  assert (Player.hand cur ≠ [] → (1 ≤ length (Player.hand cur))%nat) as Hnonempty.
  { destruct (Player.hand cur); [done|simpl; lia]. }
  case_decide as Hinv.
  { apply bind_Ok in H as ([s1 g1] & Hd & H).
    apply bind_Ok in H as (s2 & ->%advance_turn_inv & [= <- <- <-]).
    destruct (player_draws_hand _ _ _ _ _ _ p cur Hd Hcur) as (pl' & Hpl' & Hle).
    exists pl'. split_and!; [done|done|congruence|lia]. }
  case_decide as Hdraw.
  - apply bind_Ok in H as ([s1 g1] & H1 & H).
    apply bind_Ok in H as (pl' & Hpl'%player_at_Ok & [= <- <- <-]).
    assert (length (Player.hand cur) ≤ length (Player.hand pl'))%nat as Hle.
    { case_bool_decide as Hpend.
      - inv_Ok H1.
        match goal with
        | Hd : Game.player_draws _ _ _ _ = Ok _ |- _ =>
            destruct (player_draws_hand _ _ _ _ _ _ p cur Hd Hcur) as (pl1 & Hpl1 & Hle)
        end.
        cbn in Hpl'. by simplify_eq.
      - destruct (Deck.draw (GameState.deck state) g) as [[drawn d] g2].
        destruct drawn as [drawn|]; simpl in H1.
        + apply bind_Ok in H1 as (top & _ & H1).
          destruct (Card.matches drawn top _ && _).
          * eapply play_card_hand in H1 as (pl1 & Hpl1 & Hle).
            2:{ cbn. apply list_lookup_insert_eq. by eapply lookup_lt_Some. }
            cbn in Hle. rewrite length_app in Hle. simpl in Hle.
            simplify_eq. lia.
          * apply bind_Ok in H1 as (s2 & ->%advance_turn_inv & [= <- <-]). cbn in Hpl'.
            rewrite list_lookup_insert_eq in Hpl' by (by eapply lookup_lt_Some).
            simplify_eq. cbn. rewrite length_app. lia.
        + apply bind_Ok in H1 as (s2 & ->%advance_turn_inv & [= <- <-]). cbn in Hpl'.
          by simplify_eq. }
    exists pl'. split_and!; [done| | |lia].
    + intros Hover. split; [by apply Hwin|done].
    + intros _ Hne. apply Hnowin. specialize (Hnonempty Hne). lia.
  - destruct (Move.card move) as [card|].
    + case_bool_decide; simpl in H.
      * apply bind_Ok in H as (top & _ & H).
        destruct (Card.matches card top (GameState.active_color state)); simpl in H.
        -- apply bind_Ok in H as ([s1 g1] & Hplay & H).
           apply bind_Ok in H as (pl' & Hpl'%player_at_Ok & [= <- <- <-]).
           destruct (play_card_hand _ _ _ _ _ _ _ _ _ Hplay Hcur) as (pl1 & Hpl1 & Hle).
           simplify_eq. exists pl'. split_and!; [done| |done|done].
           intros Hover. split; [by apply Hwin|done].
        -- apply bind_Ok in H as (s2 & ->%advance_turn_inv & [= <- <- <-]).
           exists cur. split_and!; [done|done|done|lia].
      * apply bind_Ok in H as (s2 & ->%advance_turn_inv & [= <- <- <-]).
        exists cur. split_and!; [done|done|done|lia].
    + apply bind_Ok in H as (s2 & ->%advance_turn_inv & [= <- <- <-]).
      exists cur. split_and!; [done|done|done|lia].
Qed.

Lemma game_over_needs_empty_hand_witness :
  ∃ s pl',
    Game.turn Scenario.last_card (Move.play Scenario.red_seven None false) []
    = Ok (s, [], true)
    ∧ GameState.players s !! 0%nat = Some pl'
    ∧ Player.hand pl' = [].
Proof.
  destruct (game_over_needs_empty_hand Scenario.last_card
              (Move.play Scenario.red_seven None false) [] 0
              (Player.mk Player.HumanPlayer "You" (Scenario.pick [7]%nat))
              (stepped 1
                 (GameState.with_deck
                    (Deck.discard (GameState.deck Scenario.last_card) Scenario.red_seven)
                    (GameState.with_player 0
                       (Player.mk Player.HumanPlayer "You" []) Scenario.last_card)))
              [] true)
    as (pl' & Hpl' & Hover & _); [reflexivity|reflexivity|vm_compute; reflexivity|].
  eexists _, pl'. split_and!; [vm_compute; reflexivity|exact Hpl'|].
  by destruct Hover.
Defined.

(** ** Drawing with nothing pending *)

Section plain_draw.
Import GameState.
Implicit Types (state s : GameState.t) (pl : Player.t) (g : Rng) (card : Card.t).

Lemma turn_draw_unfold state g p cur :
  current state = Ok p → players state !! p = Some cur →
  pending_draw state ≤ 0 →
  Game.turn state Move.draw g
  = ('(state, g') ←
       (let '(drawn, d, g') := Deck.draw (deck state) g in
        let state := with_deck d state in
        match drawn with
        | Some drawn =>
            top ← Deck.top_discard (deck state);
            if Card.matches drawn top (active_color state) && no_mercy state
            then
              let pl := Player.with_hand (Player.hand cur ++ [drawn]) cur in
              Game._play_card p drawn
                (if Rank.is_wild (Card.rank drawn) then Some (Game._choose_color_auto pl)
                 else active_color state)
                (with_player p pl state) false g'
            else
              let pl := Player.with_hand (Player.hand cur ++ [drawn]) cur in
              s ← advance_turn (with_player p pl state) 1;
              Ok (s, g')
        | None =>
            s ← advance_turn state 1;
            Ok (s, g')
        end);
     pl ← player_at state p;
     Ok (state, g', Game._check_win pl)).
Proof.
  intros Hp Hcur Hpend. unfold Game.turn. rewrite Hp. simpl.
  rewrite (proj2 (player_at_Ok _ _ _) Hcur). simpl.
  by rewrite bool_decide_eq_false_2 by lia.
Qed.

(** [_play_card] for a rank other than WILD_DRAW_FOUR: the table after. *)
Lemma play_card_no_challenge p card chosen_color state challenge_flag g pl :
  players state !! p = Some pl → card ∈ Player.hand pl →
  Card.rank card ≠ Rank.WILD_DRAW_FOUR →
  ∃ s h,
    Game._play_card p card chosen_color state challenge_flag g = Ok (s, g)
    ∧ list_remove card (Player.hand pl) = Ok h
    ∧ players s = <[p:=Player.with_hand h pl]> (players state)
    ∧ deck s = Deck.discard (deck state) card
    ∧ pending_draw s
      = pending_draw state + (if decide (Card.rank card = Rank.DRAW_TWO) then 2 else 0)
    ∧ active_color s
      = (if Rank.is_wild (Card.rank card) then chosen_color else active_color state).
Proof.
  intros Hp Hin Hfour.
  destruct (play_card_unfold p card chosen_color state challenge_flag g pl Hp Hin)
    as (h & s1 & Hh & Hplace & Hs1 & Hps & ->).
  pose proof (placed_players_nonempty _ _ _ _ _ Hplace) as Hne.
  assert (deck s1 = Deck.discard (deck state) card
          ∧ pending_draw s1 = pending_draw state
          ∧ active_color s1
            = (if Rank.is_wild (Card.rank card) then chosen_color else active_color state))
    as (Hd & Hpd & Hcol).
  { subst s1. by destruct (Rank.is_wild (Card.rank card)). }
  destruct (decide (Card.rank card = Rank.SKIP)) as [Hr|Hskip].
  { rewrite apply_rank_skip by done. eexists _, h.
    rewrite (decide_False (P:=Card.rank card = Rank.DRAW_TWO)) by (by rewrite Hr).
    split_and!; try done. cbn. rewrite Hpd. lia. }
  destruct (decide (Card.rank card = Rank.REVERSE)) as [Hr|Hrev].
  { rewrite apply_rank_reverse by done. eexists _, h.
    rewrite (decide_False (P:=Card.rank card = Rank.DRAW_TWO)) by (by rewrite Hr).
    split_and!; try done. cbn. rewrite Hpd. lia. }
  destruct (decide (Card.rank card = Rank.DRAW_TWO)) as [Hr|Htwo].
  { rewrite apply_rank_draw_two by done. eexists _, h.
    split_and!; try done. cbn. by rewrite Hpd. }
  rewrite apply_rank_plain; [| |done].
  - eexists _, h. split_and!; try done. cbn. rewrite Hpd. lia.
  - rewrite !not_elem_of_cons. split_and!; try done. apply not_elem_of_nil.
Qed.
End plain_draw.

(** A DRAW move with nothing pending.  When the deck cannot supply a card,
    only the turn changes.  A card that does not match the table, or any
    card without the no-mercy rule, is kept and the turn advances one step.
    Under the no-mercy rule a card that matches is played at once (here for
    every rank but WILD_DRAW_FOUR): it ends on top of the discard pile, the
    hand holds the cards it held before the draw, a DRAW_TWO leaves two
    cards pending, and a wild card sets the most held colour of the hand. *)
Theorem draw_without_pending (state : GameState.t) (g : Rng) (p : nat)
    (cur : Player.t) (top : Card.t) :
  GameState.current state = Ok p →
  GameState.players state !! p = Some cur →
  GameState.pending_draw state ≤ 0 →
  Deck.top_discard (GameState.deck state) = Ok top →
  match Deck.draw (GameState.deck state) g with
  | (None, _, _) =>
      Game.turn state Move.draw g = Ok (stepped 1 state, g, Game._check_win cur)
  | (Some drawn, d, g1) =>
      let pl := Player.with_hand (Player.hand cur ++ [drawn]) cur in
      if Card.matches drawn top (GameState.active_color state)
         && GameState.no_mercy state
      then
        Card.rank drawn ≠ Rank.WILD_DRAW_FOUR →
        ∃ s h,
          Game.turn state Move.draw g = Ok (s, g1, bool_decide (h = []))
          ∧ h ≡ₚ Player.hand cur
          ∧ GameState.players s = <[p:=Player.with_hand h cur]> (GameState.players state)
          ∧ GameState.deck s = Deck.discard d drawn
          ∧ GameState.pending_draw s
            = GameState.pending_draw state
              + (if decide (Card.rank drawn = Rank.DRAW_TWO) then 2 else 0)
          ∧ GameState.active_color s
            = (if Rank.is_wild (Card.rank drawn)
               then Some (Game._choose_color_auto pl)
               else GameState.active_color state)
      else
        Game.turn state Move.draw g
        = Ok (stepped 1 (GameState.with_player p pl (GameState.with_deck d state)),
              g1, false)
  end.
Proof.
  intros Hp Hcur Hpend Htop.
  pose proof (players_nonempty _ _ _ Hcur) as Hne.
  rewrite (turn_draw_unfold state g p cur Hp Hcur Hpend).
  destruct (draw_cases (GameState.deck state) g)
    as [(_ & _ & ->)|(drawn & d & g1 & -> & _ & _ & _ & Htop')].
  { cbn. rewrite advance_turn_Ok by done. cbn.
    unfold GameState.player_at. cbn. by rewrite Hcur. }
  cbv zeta. cbn [GameState.deck GameState.with_deck GameState.active_color
                 GameState.no_mercy].
  rewrite Htop', Htop. cbn [mbind result_bind].
  destruct (Card.matches drawn top (GameState.active_color state)
            && GameState.no_mercy state).
  - intros Hfour.
    set (pl := Player.with_hand (Player.hand cur ++ [drawn]) cur).
    destruct (play_card_no_challenge p drawn
                (if Rank.is_wild (Card.rank drawn) then Some (Game._choose_color_auto pl)
                 else GameState.active_color state)
                (GameState.with_player p pl (GameState.with_deck d state)) false g1 pl)
      as (s & h & Hplay & Hh & Hps & Hd & Hpd & Hcol).
    { cbn. apply list_lookup_insert_eq. by eapply lookup_lt_Some. }
    { cbn. apply elem_of_app. right. by apply list_elem_of_singleton. }
    { done. }
    exists s, h. rewrite Hplay. cbn [mbind result_bind].
    assert (GameState.players s = <[p:=Player.with_hand h cur]> (GameState.players state))
      as Hps'.
    { rewrite Hps. cbn. by rewrite list_insert_insert_eq. }
    split_and!; try done.
    + unfold GameState.player_at. rewrite Hps'.
      rewrite list_lookup_insert_eq by (by eapply lookup_lt_Some). done.
    + apply list_remove_Ok in Hh. cbn in Hh.
      rewrite (comm (++)) in Hh. simpl in Hh. by apply Permutation_cons_inv in Hh.
    + rewrite Hcol. by destruct (Rank.is_wild (Card.rank drawn)).
  - rewrite advance_turn_Ok by (by apply insert_nonempty). cbn [mbind result_bind].
    unfold GameState.player_at. cbn.
    rewrite list_lookup_insert_eq by (by eapply lookup_lt_Some). cbn.
    do 3 f_equal. unfold Game._check_win. apply bool_decide_eq_false_2.
    cbn. intros Hnil. by apply app_eq_nil in Hnil as [_ ?].
Qed.

Lemma draw_without_pending_witness :
  ∃ s h,
    Game.turn Scenario.opening Move.draw [] = Ok (s, [], bool_decide (h = []))
    ∧ h ≡ₚ Scenario.pick [12; 7; 30; 55; 80]%nat
    ∧ Deck.top_discard (GameState.deck s) = Ok (Card.mk 0 Color.RED Rank.ZERO)
    ∧ GameState.pending_draw s = 0
    ∧ GameState.active_color s = Some Color.RED.
Proof.
  pose proof (draw_without_pending Scenario.opening [] 0
                (Player.mk Player.HumanPlayer "You" (Scenario.pick [12; 7; 30; 55; 80]%nat))
                (Card.mk 5 Color.RED Rank.FIVE) eq_refl eq_refl) as H.
  specialize (H ltac:(simpl; lia) eq_refl).
  assert (Deck.draw (GameState.deck Scenario.opening) []
          = (Some (Card.mk 0 Color.RED Rank.ZERO),
             Deck.mk (Scenario.left_over [0; 12; 7; 30; 55; 80; 84; 54; 29; 3; 5]%nat)
                     (Scenario.pick [5]%nat), [])) as Hdraw
    by (vm_compute; reflexivity).
  rewrite Hdraw in H. cbv zeta in H.
  change (Card.matches _ _ _ && _) with true in H. cbv iota in H.
  destruct H as (s & h & Hturn & Hperm & _ & Hd & Hpd & Hcol); [done|].
  exists s, h. split_and!; [exact Hturn|exact Hperm| |exact Hpd|exact Hcol].
  by rewrite Hd.
Defined.

(** ** Rank families *)

(** The three families of ranks exclude one another for every string, and
    each of the fifteen ranks is in one of them; a rank outside the fifteen
    is in none. *)
Theorem rank_families (rank : string) :
  let families :=
    [Rank.is_number rank; Rank.is_action rank; Rank.is_wild rank] in
  length (filter (λ b : bool, b = true) families)
  = (if bool_decide (rank ∈ Rank.NUMBERS ++ Rank.ACTIONS ++ Rank.WILDS)
     then 1%nat else 0%nat).
Proof.
  intros families. unfold families, Rank.is_number, Rank.is_action, Rank.is_wild.
  destruct (decide (rank ∈ Rank.NUMBERS ++ Rank.ACTIONS ++ Rank.WILDS)) as [Hin|Hout].
  - rewrite (bool_decide_eq_true_2 _ Hin).
    unfold Rank.NUMBERS, Rank.ACTIONS, Rank.WILDS in Hin. simpl in Hin.
    repeat (apply elem_of_cons in Hin as [->|Hin]; [reflexivity|]).
    by apply elem_of_nil in Hin.
  - rewrite (bool_decide_eq_false_2 _ Hout).
    rewrite !not_elem_of_app in Hout. destruct Hout as (Hn & Ha & Hw).
    by rewrite !bool_decide_eq_false_2.
Qed.
